(** * Terminal prompts of Rush: the yes/no prompt and the password prompt

    A shallow embedding of [TerminalInput.ts]: the two keyboard loops
    ([YesNoKeyboardLoop], [PasswordKeyboardLoop]) and the static methods
    [promptYesNo] and [promptPasswordLine] that run them.

    JavaScript strings are [string]s, a character standing for one code unit;
    JavaScript numbers that hold lengths, indices and columns are integers of
    [Z]; a value that may be [undefined] is an [option]. *)

From Stdlib Require Import ZArith List String Ascii Bool Lia.
Import ListNotations.
Open Scope string_scope.
Open Scope Z_scope.

(** ** JavaScript strings *)

Module Js.

(** The line feed, ['\n']. *)
Definition nl_char : ascii := "010"%char.
Definition nl : string := String nl_char "".

(** [s.length]. *)
Definition length (s : string) : Z := Z.of_nat (String.length s).

Definition clamp (len x : Z) : Z := Z.min (Z.max x 0) len.

(** [s.substring(a, b)]: both indices are clamped to [0 .. s.length] and
    swapped when the first is the larger one. *)
Definition substring (s : string) (a b : Z) : string :=
  let a' := clamp (length s) a in
  let b' := clamp (length s) b in
  let lo := Z.min a' b' in
  let hi := Z.max a' b' in
  String.substring (Z.to_nat lo) (Z.to_nat (hi - lo)) s.

(** [s.substring(a)], to the end of the string. *)
Definition substring_from (s : string) (a : Z) : string :=
  substring s a (length s).

(** [s.substr(start, n)]: a negative start counts from the end, and at most
    [n] characters are taken. *)
Definition substr (s : string) (start n : Z) : string :=
  let from := if start <? 0 then Z.max (length s + start) 0
              else Z.min start (length s) in
  let count := Z.min (Z.max n 0) (length s - from) in
  String.substring (Z.to_nat from) (Z.to_nat count) s.

(** [s.lastIndexOf('\n')], or [-1]. *)
Fixpoint lastIndexOf_nl_from (i : Z) (s : string) (found : Z) : Z :=
  match s with
  | EmptyString => found
  | String c rest =>
      lastIndexOf_nl_from (i + 1) rest
        (if Ascii.eqb c nl_char then i else found)
  end.

Definition lastIndexOf_nl (s : string) : Z := lastIndexOf_nl_from 0 s (-1).

(** Truthiness of a [string | undefined]. *)
Definition truthy (o : option string) : bool :=
  match o with
  | Some s => negb (s =? "")%string
  | None => false
  end.

End Js.

(** ** The terminal *)

(** What the loops do to [process.stderr]: [write], the three cursor
    functions of the [readline] module, and the two cursor-visibility
    sequences of the base class. *)
Inductive TermOp : Type :=
| Write (text : string)
| CursorTo (x : Z)
| ClearLine (dir : Z)
| MoveCursor (dx dy : Z)
| HideCursor
| UnhideCursor.

(** A [NodeJS.WriteStream]: the width it reports, and everything written to
    it so far, oldest first. *)
Record WriteStream : Type := {
  columns : option Z;
  written : list TermOp
}.

Definition emit (op : TermOp) (w : WriteStream) : WriteStream :=
  {| columns := columns w; written := (written w ++ [op])%list |}.

(** [readline.Key], as far as the loops read it. *)
Record Key : Type := {
  name : option string;
  sequence : option string
}.

(** One ['keypress'] event. *)
Record KeyEvent : Type := {
  character : string;
  key : Key
}.

(** [key.name === n]. *)
Definition name_is (k : Key) (n : string) : bool :=
  match name k with
  | Some m => (m =? n)%string
  | None => false
  end.

(** The external text styling: [colors.green], [colors.bold] and
    [AnsiEscape.removeCodes]. *)
Class TextStyle : Type := {
  green : string -> string;
  bold : string -> string;
  removeCodes : string -> string
}.

(** ** The keyboard loop *)

(** Modelled from the spec: the Interactive Loop Engine, class [KeyboardLoop]
    of [./KeyboardLoop], which the prompts extend and which is not among the
    sources.  It owns the error stream and the [resolved] flag.
    [startAsync] calls [onStart] and suspends the caller; the keystrokes
    arrive in batches, and every keystroke of a batch is handed to
    [onKeypress], one at a time in arrival order.  [resolveAsync] marks the
    loop resolved; the caller wakes, and the subscription ends, after the
    batch in which that happened, so the keystrokes that follow in the same
    batch still reach [onKeypress]. *)
Record KeyboardLoop : Type := {
  stderr : WriteStream;
  resolved : bool
}.

Module Loop.

Definition create (err : WriteStream) : KeyboardLoop :=
  {| stderr := err; resolved := false |}.

Definition emit (op : TermOp) (l : KeyboardLoop) : KeyboardLoop :=
  {| stderr := emit op (stderr l); resolved := resolved l |}.

Definition resolveAsync (l : KeyboardLoop) : KeyboardLoop :=
  {| stderr := stderr l; resolved := true |}.

Definition hideCursor : KeyboardLoop -> KeyboardLoop := emit HideCursor.
Definition unhideCursor : KeyboardLoop -> KeyboardLoop := emit UnhideCursor.

End Loop.

(** The two hooks a concrete loop provides. *)
Class Prompt (S : Type) : Type := {
  base : S -> KeyboardLoop;
  onStart : S -> S;
  onKeypress : string -> Key -> S -> S
}.

Section Engine.

Context {S : Type} `{Prompt S}.

(** One batch: every keystroke of it is handed to [onKeypress], whether
    the loop has resolved or not. *)
Definition keypresses (events : list KeyEvent) (s : S) : S :=
  fold_left (fun s e => onKeypress (character e) (key e) s) events s.

(** The batches reach the loop in order, until a batch has resolved it. *)
Fixpoint deliver_batches (batches : list (list KeyEvent)) (s : S) : S :=
  match batches with
  | [] => s
  | batch :: rest =>
      if resolved (base s) then s
      else deliver_batches rest (keypresses batch s)
  end.

(** The keystrokes when each of them comes in a batch of its own: they
    reach [onKeypress] in order, until one has resolved the loop. *)
Fixpoint deliver (events : list KeyEvent) (s : S) : S :=
  match events with
  | [] => s
  | e :: rest =>
      if resolved (base s) then s
      else deliver rest (onKeypress (character e) (key e) s)
  end.

(** [await loop.startAsync()], each keystroke in a batch of its own: the
    loop after it resolved, or [None] when the keystrokes run out first and
    the caller stays suspended. *)
Definition startAsync (events : list KeyEvent) (s : S) : option S :=
  let s' := deliver events (onStart s) in
  if resolved (base s') then Some s' else None.

(** [await loop.startAsync()], the keystrokes in batches. *)
Definition startAsync_batches (batches : list (list KeyEvent)) (s : S)
    : option S :=
  let s' := deliver_batches batches (onStart s) in
  if resolved (base s') then Some s' else None.

End Engine.

(** A [while (cond) body] loop, run for at most [fuel] rounds. *)
Fixpoint while_loop {S : Type} (cond : S -> bool) (body : S -> S)
    (fuel : nat) (s : S) : S :=
  match fuel with
  | O => s
  | Datatypes.S fuel' =>
      if cond s then while_loop cond body fuel' (body s) else s
  end.


(** ** The yes/no prompt *)

(** [IPromptYesNoOptions]. *)
Record IPromptYesNoOptions : Type := {
  yn_question : string;
  defaultValue : option bool
}.

Module YesNo.

(** [class YesNoKeyboardLoop extends KeyboardLoop]. *)
Record t : Type := {
  super : KeyboardLoop;
  options : IPromptYesNoOptions;
  result : option bool
}.

Definition create (err : WriteStream) (o : IPromptYesNoOptions) : t :=
  {| super := Loop.create err; options := o; result := None |}.

Definition with_super (f : KeyboardLoop -> KeyboardLoop) (s : t) : t :=
  {| super := f (super s); options := options s; result := result s |}.

Definition set_result (r : option bool) (s : t) : t :=
  {| super := super s; options := options s; result := r |}.

Definition write (text : string) : t -> t := with_super (Loop.emit (Write text)).

Definition optionSuffix (d : option bool) : string :=
  match d with
  | Some true => "(Y/n)"
  | Some false => "(y/N)"
  | None => "(y/n)"
  end.

Section Styled.

Context `{TextStyle}.

Definition onStart (s : t) : t :=
  let s := write (green "==>" ++ " ") s in
  let s := write (bold (yn_question (options s))) s in
  write (" " ++ bold (optionSuffix (defaultValue (options s))) ++ " ") s.

End Styled.

(** The [switch (key.name)] of [onKeypress]: the value it assigns to
    [this.result], if any. *)
Definition assigned (d : option bool) (k : Key) : option bool :=
  if name_is k "y" then Some true
  else if name_is k "n" then Some false
  else if name_is k "enter" || name_is k "return" then d
  else None.

Definition onKeypress (character : string) (k : Key) (s : t) : t :=
  match result s with
  | Some _ => s
  | None =>
      let s :=
        match assigned (defaultValue (options s)) k with
        | Some b => set_result (Some b) s
        | None => s
        end in
      match result s with
      | Some r =>
          let s := write (if r then "Yes" ++ Js.nl else "No" ++ Js.nl) s in
          with_super Loop.resolveAsync s
      | None => s
      end
  end.

#[global] Instance prompt `{TextStyle} : Prompt t :=
  Build_Prompt t super onStart onKeypress.

End YesNo.

(** ** The password prompt *)

(** [IPromptPasswordOptions]. *)
Record IPromptPasswordOptions : Type := {
  pw_question : string;
  passwordCharacter : option string
}.

Module Password.

(** [class PasswordKeyboardLoop extends KeyboardLoop]. *)
Record t : Type := {
  super : KeyboardLoop;
  options : IPromptPasswordOptions;
  startX : Z;
  printedY : Z;
  lastPrintedLength : Z;
  result : string
}.

Definition create (err : WriteStream) (o : IPromptPasswordOptions) : t :=
  {| super := Loop.create err; options := o; startX := 0; printedY := 0;
     lastPrintedLength := 0; result := "" |}.

Definition with_super (f : KeyboardLoop -> KeyboardLoop) (s : t) : t :=
  {| super := f (super s); options := options s; startX := startX s;
     printedY := printedY s; lastPrintedLength := lastPrintedLength s;
     result := result s |}.

Definition set_startX (x : Z) (s : t) : t :=
  {| super := super s; options := options s; startX := x;
     printedY := printedY s; lastPrintedLength := lastPrintedLength s;
     result := result s |}.

Definition set_printedY (y : Z) (s : t) : t :=
  {| super := super s; options := options s; startX := startX s;
     printedY := y; lastPrintedLength := lastPrintedLength s;
     result := result s |}.

Definition set_lastPrintedLength (n : Z) (s : t) : t :=
  {| super := super s; options := options s; startX := startX s;
     printedY := printedY s; lastPrintedLength := n; result := result s |}.

Definition set_result (r : string) (s : t) : t :=
  {| super := super s; options := options s; startX := startX s;
     printedY := printedY s; lastPrintedLength := lastPrintedLength s;
     result := r |}.

Definition term (op : TermOp) : t -> t := with_super (Loop.emit op).

(** [_getLineWrapWidth]: [0] is as falsy as [undefined]. *)
Definition getLineWrapWidth (s : t) : Z :=
  match columns (stderr (super s)) with
  | Some c => if c =? 0 then 80 else c
  | None => 80
  end.

Section Styled.

Context `{TextStyle}.

Definition onStart (s : t) : t :=
  let s := set_result "" s in
  let s := term (CursorTo 0) s in
  let s := term (ClearLine 1) s in
  let prefix := green "==>" ++ " " ++ bold (pw_question (options s)) ++ " " in
  let s := term (Write prefix) s in
  let lineStartIndex := Js.lastIndexOf_nl prefix in
  let lineStartIndex := if lineStartIndex <? 0 then 0 else lineStartIndex in
  let line := Js.substring_from prefix lineStartIndex in
  set_startX (Z.rem (Js.length (removeCodes line)) (getLineWrapWidth s)) s.

End Styled.

(** The test that decides whether the character joins [this.result]. *)
Definition printable (character : string) (k : Key) : bool :=
  if (character =? "")%string then false
  else if Js.truthy (name k)
          && negb (match name k with
                   | Some n => Js.length n =? 1
                   | None => false
                   end)
          && negb (name_is k "space") then false
  else if negb (Js.truthy (name k)) && negb (Js.truthy (sequence k)) then false
  else true.

(** The ['backspace'] case and the printable test: what a keystroke other
    than enter does to [this.result]. *)
Definition edit (character : string) (k : Key) (s : t) : t :=
  let s :=
    if name_is k "backspace"
    then set_result (Js.substring (result s) 0 (Js.length (result s) - 1)) s
    else s in
  if printable character k then set_result (result s ++ character) s else s.

(** One round of the [while (this._printedY > 0)] loop that takes the cursor
    back to the first row. *)
Definition restore_row (needsClear : bool) (s : t) : t :=
  let s := term (CursorTo 0) s in
  let s := if needsClear then term (ClearLine 1) s else s in
  let s := term (MoveCursor 0 (-1)) s in
  set_printedY (printedY s - 1) s.

(** The object and the locals [i], [column] and [buffer] of the loop that
    draws [this.result]. *)
Record Frame : Type := {
  self : t;
  i : Z;
  column : Z;
  buffer : string
}.

(** The first half of a round: one more glyph in [buffer], then [++i] and
    [++column]. *)
Definition advance (passwordCharacter : string) (f : Frame) : Frame :=
  {| self := self f;
     i := i f + 1;
     column := column f + 1;
     buffer :=
       buffer f ++ (if (passwordCharacter =? "")%string
                    then Js.substr (result (self f)) (i f) 1
                    else passwordCharacter) |}.

(** The second half: the line break, one column before the last. *)
Definition wrap (f : Frame) : Frame :=
  if column f >=? getLineWrapWidth (self f) - 1
  then {| self := set_printedY (printedY (self f) + 1) (self f);
          i := i f;
          column := 0;
          buffer := buffer f ++ Js.nl |}
  else f.

Definition draw (passwordCharacter : string) (f : Frame) : Frame :=
  wrap (advance passwordCharacter f).

Definition drawing (f : Frame) : bool := i f <? Js.length (result (self f)).

(** The character that stands for a typed one: ['*'] by default, else the
    first character of the option, which may be none. *)
Definition mask (o : IPromptPasswordOptions) : string :=
  match passwordCharacter o with
  | None => "*"
  | Some c => Js.substr c 0 1
  end.

(** The frame before the first round: [i = 0], [column = this._startX],
    [this._printedY = 0] and an empty [buffer]. *)
Definition first_frame (s : t) : Frame :=
  {| self := set_printedY 0 s; i := 0; column := startX s; buffer := "" |}.

(** The frame at [this.stderr.write(buffer)], when the whole of
    [this.result] has been drawn. *)
Definition drawn (s : t) : Frame :=
  while_loop drawing (draw (mask (options s)))
    (String.length (result s)) (first_frame s).

(** The rendering that ends [onKeypress], from [needsClear] on. *)
Definition render (s : t) : t :=
  let needsClear := Js.length (result s) <? lastPrintedLength s in
  let s := set_lastPrintedLength (Js.length (result s)) s in
  let s := with_super Loop.hideCursor s in
  let s :=
    while_loop (fun s => 0 <? printedY s) (restore_row needsClear)
      (Z.to_nat (printedY s)) s in
  let s := term (CursorTo (startX s)) s in
  let f := drawn s in
  let s := term (Write (buffer f)) (self f) in
  let s := if needsClear then term (ClearLine 1) s else s in
  with_super Loop.unhideCursor s.

Definition onKeypress (character : string) (k : Key) (s : t) : t :=
  if name_is k "enter" || name_is k "return"
  then with_super Loop.resolveAsync (term (Write Js.nl) s)
  else render (edit character k s).

#[global] Instance prompt `{TextStyle} : Prompt t :=
  Build_Prompt t super onStart onKeypress.

End Password.

(** ** The static methods of [TerminalInput] *)

Section TerminalInput.

Context `{TextStyle}.

(** [promptYesNo]: [keyboardLoop.result!] once [startAsync] has returned;
    the inner option is the [undefined] that the assertion lets through. *)
Definition promptYesNo (err : WriteStream) (o : IPromptYesNoOptions)
    (events : list KeyEvent) : option (option bool) :=
  match startAsync events (YesNo.create err o) with
  | Some loop => Some (YesNo.result loop)
  | None => None
  end.

(** [promptPasswordLine]: its parameter is declared as [IPromptLineOptions],
    which every [IPromptPasswordOptions] object satisfies, and the object
    goes to the constructor as it is. *)
Definition promptPasswordLine (err : WriteStream) (o : IPromptPasswordOptions)
    (events : list KeyEvent) : option string :=
  match startAsync events (Password.create err o) with
  | Some loop => Some (Password.result loop)
  | None => None
  end.

(** The two prompts with the keystrokes in batches. *)
Definition promptYesNo_batches (err : WriteStream) (o : IPromptYesNoOptions)
    (batches : list (list KeyEvent)) : option (option bool) :=
  match startAsync_batches batches (YesNo.create err o) with
  | Some loop => Some (YesNo.result loop)
  | None => None
  end.

Definition promptPasswordLine_batches (err : WriteStream)
    (o : IPromptPasswordOptions) (batches : list (list KeyEvent))
    : option string :=
  match startAsync_batches batches (Password.create err o) with
  | Some loop => Some (Password.result loop)
  | None => None
  end.

End TerminalInput.

(** ** Words of the specification *)

(** The key is Enter or Return. *)
Definition is_enter (k : Key) : Prop :=
  name k = Some "enter" \/ name k = Some "return".

(** The key resolves the yes/no prompt to [b] when the default is [d]: [y],
    or Enter with a default of [true], for [true]; [n], or Enter with a
    default of [false], for [false]. *)
Definition resolves_to (d : option bool) (k : Key) (b : bool) : Prop :=
  if b
  then name k = Some "y" \/ (is_enter k /\ d = Some true)
  else name k = Some "n" \/ (is_enter k /\ d = Some false).

(** The answer of the first resolving key among the keystrokes, if any. *)
Fixpoint first_answer (d : option bool) (events : list KeyEvent)
    : option bool :=
  match events with
  | [] => None
  | e :: rest =>
      match YesNo.assigned d (key e) with
      | Some b => Some b
      | None => first_answer d rest
      end
  end.


(** The event carries a named key, or a raw sequence: the field is there and
    is not the empty string. *)
Definition carries (o : option string) : Prop :=
  exists s, o = Some s /\ s <> "".

(** The string without its last character. *)
Fixpoint remove_last (s : string) : string :=
  match s with
  | EmptyString => ""
  | String _ EmptyString => ""
  | String c rest => String c (remove_last rest)
  end.

(** The buffer of the masked prompt after the keystrokes: Backspace removes
    the last character, a printable event appends its character. *)
Fixpoint typed (events : list KeyEvent) (buffer : string) : string :=
  match events with
  | [] => buffer
  | e :: rest =>
      typed rest
        (if name_is (key e) "backspace" then remove_last buffer
         else if Password.printable (character e) (key e)
              then buffer ++ character e
              else buffer)
  end.

(** The string with its line feeds taken out, and their number. *)
Fixpoint strip_nl (s : string) : string :=
  match s with
  | EmptyString => ""
  | String c rest =>
      if Ascii.eqb c Js.nl_char then strip_nl rest
      else String c (strip_nl rest)
  end.

Fixpoint count_nl (s : string) : Z :=
  match s with
  | EmptyString => 0
  | String c rest =>
      (if Ascii.eqb c Js.nl_char then 1 else 0) + count_nl rest
  end.

(** [n] copies of a character, and [n] asterisks. *)
Fixpoint copies (a : ascii) (n : nat) : string :=
  match n with
  | O => ""
  | Datatypes.S n' => String a (copies a n')
  end.

Definition stars (n : nat) : string := copies "*" n.

(** The text of the latest [write] to the stream. *)
Fixpoint last_write (ops : list TermOp) : option string :=
  match ops with
  | [] => None
  | op :: rest =>
      match last_write rest, op with
      | Some text, _ => Some text
      | None, Write text => Some text
      | None, _ => None
      end
  end.

(** What one rendering writes to the terminal: the operations that [render]
    adds to the stream. *)
Definition pass_output (s : Password.t) : list TermOp :=
  skipn (List.length (written (stderr (Password.super s))))
    (written (stderr (Password.super (Password.render s)))).

(** The frame in the middle of round [n] of the drawing loop, counted from
    one: the glyph of character [n] is in the buffer and the column has
    moved, the test for the line break is still to come. *)
Definition mid_round (s : Password.t) (n : nat) : Password.Frame :=
  Password.advance (Password.mask (Password.options s))
    (Nat.iter (Nat.pred n) (Password.draw (Password.mask (Password.options s)))
       (Password.first_frame s)).

(** The drawing loop changes nothing of the object but [_printedY]. *)
Definition on_object (s : Password.t) (f : Password.Frame) : Prop :=
  Password.self f
  = Password.set_printedY (Password.printedY (Password.self f)) s.

(** The wrap-count law for the rendering of [s]. *)
Definition wrap_law (s : Password.t) : Prop :=
  let W := Password.getLineWrapWidth s in
  Password.printedY (Password.render s) =
  (Password.startX s + Js.length (Password.result s)) / (W - 1)
  - Password.startX s / (W - 1).

(** A terminal of [w] columns, nothing written yet, and text styling that
    adds no control sequence. *)
Definition tty (w : Z) : WriteStream := {| columns := Some w; written := [] |}.

Definition plain : TextStyle :=
  {| green := fun s => s; bold := fun s => s; removeCodes := fun s => s |}.

(** The keystroke of a letter key, and of a named key such as Enter. *)
Definition letter (c : string) : KeyEvent :=
  {| character := c; key := {| name := Some c; sequence := Some c |} |}.

Definition named (n : string) (c : string) : KeyEvent :=
  {| character := c; key := {| name := Some n; sequence := Some c |} |}.

(** Two objects that the drawing loop cannot tell apart: the same buffer,
    start column, options and terminal width. *)
Definition same_drawing (a b : Password.t) : Prop :=
  Password.result a = Password.result b /\
  Password.startX a = Password.startX b /\
  Password.options a = Password.options b /\
  columns (stderr (Password.super a)) = columns (stderr (Password.super b)).

(** The object after [ops] went to its stream. *)
Definition appended (ops : list TermOp) (s : Password.t) : Password.t :=
  Password.with_super
    (fun l =>
       {| stderr := {| columns := columns (stderr l);
                       written := (written (stderr l) ++ ops)%list |};
          resolved := resolved l |}) s.

(** The operations that take the cursor up [n] rows. *)
Definition restore_ops (needsClear : bool) (n : nat) : list TermOp :=
  List.concat
    (repeat
       ([CursorTo 0] ++ (if needsClear then [ClearLine 1] else [])
        ++ [MoveCursor 0 (-1)])%list n).

(** The operations of one rendering of [s], in order. *)
Definition render_ops (s : Password.t) : list TermOp :=
  let needsClear :=
    Js.length (Password.result s) <? Password.lastPrintedLength s in
  ([HideCursor]
   ++ restore_ops needsClear (Z.to_nat (Password.printedY s))
   ++ [CursorTo (Password.startX s);
       Write (Password.buffer (Password.drawn s))]
   ++ (if needsClear then [ClearLine 1] else [])
   ++ [UnhideCursor])%list.

(** Scenario 3, with the round in which the column reaches 9 left open:
    a masked prompt with the asterisk and an empty question, whose five
    columns of prefix give [_startX = 5], on a terminal of 10 columns;
    after ["abcdef"] is typed, the column reaches 9 in round [n] of the
    drawing, the line breaks there, and [_printedY] ends at 1. *)
Definition scenario3_loop : Password.t :=
  deliver (H := @Password.prompt plain)
    [letter "a"; letter "b"; letter "c"; letter "d"; letter "e"; letter "f"]
    (@Password.onStart plain
       (Password.create (tty 10)
          {| pw_question := ""; passwordCharacter := Some "*" |})).

Definition scenario3 (n : nat) : Prop :=
  Password.startX scenario3_loop = 5 /\
  Password.result scenario3_loop = "abcdef" /\
  Password.column (mid_round scenario3_loop n) = 9 /\
  Password.printedY (Password.self (Password.wrap (mid_round scenario3_loop n)))
  = Password.printedY (Password.self (mid_round scenario3_loop n)) + 1 /\
  Password.printedY scenario3_loop = 1.

(** A masked prompt whose question of four characters gives a prefix of
    nine columns, on a terminal of 10 columns, with one character typed and
    not yet rendered. *)
Definition last_column_loop : Password.t :=
  Password.edit "a" (key (letter "a"))
    (@Password.onStart plain
       (Password.create (tty 10)
          {| pw_question := "Pass"; passwordCharacter := None |})).

(** A masked prompt in which ["ab"] was typed and rendered and Backspace
    has just shortened the buffer, the rendering still to come. *)
Definition after_backspace_loop : Password.t :=
  Password.edit "" (key (named "backspace" ""))
    (deliver (H := @Password.prompt plain) [letter "a"; letter "b"]
       (@Password.onStart plain
          (Password.create (tty 80)
             {| pw_question := "Password:"; passwordCharacter := None |}))).

(** ** Words for the rest of the prompts *)

(** The prefix that the password prompt writes before the input. *)
Definition pw_prefix `{TextStyle} (question : string) : string :=
  green "==>" ++ " " ++ bold question ++ " ".

(** The number of times the operations take the cursor up one row. *)
Fixpoint ups (ops : list TermOp) : Z :=
  match ops with
  | [] => 0
  | MoveCursor 0 (-1) :: rest => 1 + ups rest
  | _ :: rest => ups rest
  end.

(** The stream reports no negative width. *)
Definition width_not_negative (s : Password.t) : Prop :=
  match columns (stderr (Password.super s)) with
  | Some c => 0 <= c
  | None => True
  end.

(** Loops for the examples: a yes/no loop that has its answer; a password
    loop with three characters typed on a terminal of width 1; and a fresh
    password loop on a terminal of 10 columns. *)
Definition answered_loop : YesNo.t :=
  YesNo.set_result (Some true)
    (YesNo.create (tty 80)
       {| yn_question := "Continue?"; defaultValue := None |}).

Definition narrow_loop : Password.t :=
  Password.set_result "abc"
    (Password.create (tty 1)
       {| pw_question := "Pin"; passwordCharacter := None |}).

Definition fresh_loop : Password.t :=
  Password.create (tty 10)
    {| pw_question := "Pin"; passwordCharacter := None |}.

(** The keystrokes [h], [u], Backspace, [i], Return and [x]: the first four
    build ["hi"], and [x] comes after Return. *)
Definition hi_keys : list KeyEvent :=
  [letter "h"; letter "u"; named "backspace" (String "127" ""); letter "i"].

Definition hi_return_x : list KeyEvent :=
  (hi_keys ++ [named "return" (String "013" ""); letter "x"])%list.

Definition password_options : IPromptPasswordOptions :=
  {| pw_question := "Password:"; passwordCharacter := None |}.

(** ** The yes/no prompt: proofs *)

Lemma name_is_true (k : Key) (n : string) :
  name_is k n = true <-> name k = Some n.
Proof.
  unfold name_is. destruct (name k) as [m|].
  - rewrite String.eqb_eq. split; congruence.
  - split; discriminate.
Qed.

Lemma name_is_false (k : Key) (n : string) :
  name_is k n = false <-> name k <> Some n.
Proof.
  rewrite <- name_is_true. destruct (name_is k n); split; congruence.
Qed.

Lemma is_enter_true (k : Key) :
  name_is k "enter" || name_is k "return" = true <-> is_enter k.
Proof.
  unfold is_enter. rewrite orb_true_iff, !name_is_true. reflexivity.
Qed.

Lemma assigned_resolves (d : option bool) (k : Key) (b : bool) :
  YesNo.assigned d k = Some b <-> resolves_to d k b.
Proof.
  unfold YesNo.assigned, resolves_to.
  destruct (name_is k "y") eqn:Hy.
  { apply name_is_true in Hy. unfold is_enter. rewrite Hy.
    destruct b; split; intros; try tauto; try discriminate;
      intuition discriminate. }
  destruct (name_is k "n") eqn:Hn.
  { apply name_is_true in Hn. unfold is_enter. rewrite Hn.
    destruct b; split; intros; try tauto; try discriminate;
      intuition discriminate. }
  apply name_is_false in Hy, Hn.
  destruct (name_is k "enter" || name_is k "return") eqn:He.
  - apply is_enter_true in He.
    destruct b; split; intros; try tauto; intuition congruence.
  - assert (~ is_enter k) by (rewrite <- is_enter_true; congruence).
    destruct b; split; intros; try discriminate; tauto.
Qed.

Lemma assigned_none (d : option bool) (k : Key) :
  YesNo.assigned d k = None <-> forall b, ~ resolves_to d k b.
Proof.
  split.
  - intros E b R. apply assigned_resolves in R. congruence.
  - intros N. destruct (YesNo.assigned d k) as [b|] eqn:E; [|reflexivity].
    apply assigned_resolves in E. destruct (N b E).
Qed.

(** The first resolving key splits the keystrokes. *)
Lemma first_answer_split (d : option bool) (events : list KeyEvent) (b : bool) :
  first_answer d events = Some b <->
  exists pre e post,
    events = (pre ++ e :: post)%list /\
    Forall (fun e' => YesNo.assigned d (key e') = None) pre /\
    YesNo.assigned d (key e) = Some b.
Proof.
  induction events as [|e0 rest IH]; simpl.
  - split; [discriminate|]. intros (pre & e & post & E & _).
    destruct pre; discriminate.
  - destruct (YesNo.assigned d (key e0)) as [b0|] eqn:E0.
    + split.
      * intros [= ->]. exists [], e0, rest. auto.
      * intros (pre & e & post & E & Hpre & He).
        destruct pre as [|p pre]; simpl in E; injection E as -> ->.
        -- congruence.
        -- inversion Hpre; congruence.
    + rewrite IH. split.
      * intros (pre & e & post & -> & Hpre & He).
        exists (e0 :: pre), e, post. auto.
      * intros (pre & e & post & E & Hpre & He).
        destruct pre as [|p pre]; simpl in E; injection E as -> ->.
        -- congruence.
        -- inversion Hpre; subst. exists pre, e, post. auto.
Qed.

Section YesNoFacts.

Context `{TextStyle}.

(** A keystroke that reaches a loop whose result is set changes nothing. *)
Lemma yn_onKeypress_settled (c : string) (k : Key) (s : YesNo.t) (b : bool) :
  YesNo.result s = Some b -> YesNo.onKeypress c k s = s.
Proof.
  unfold YesNo.onKeypress. intros ->. reflexivity.
Qed.

(** What a keystroke does to a waiting loop. *)
Lemma yn_onKeypress_waiting (c : string) (k : Key) (s : YesNo.t) :
  YesNo.result s = None ->
  match YesNo.assigned (defaultValue (YesNo.options s)) k with
  | Some b =>
      YesNo.result (YesNo.onKeypress c k s) = Some b /\
      resolved (YesNo.super (YesNo.onKeypress c k s)) = true
  | None => YesNo.onKeypress c k s = s
  end.
Proof.
  unfold YesNo.onKeypress. intros E. rewrite E.
  destruct (YesNo.assigned _ k) as [b|]; simpl.
  - split; reflexivity.
  - rewrite E. reflexivity.
Qed.

Lemma yn_deliver (events : list KeyEvent) (s : YesNo.t) :
  YesNo.result s = None ->
  resolved (YesNo.super s) = false ->
  match first_answer (defaultValue (YesNo.options s)) events with
  | Some b =>
      YesNo.result (deliver events s) = Some b /\
      resolved (YesNo.super (deliver events s)) = true
  | None => deliver events s = s
  end.
Proof.
  intros Hres Hwait. induction events as [|e rest IH]; simpl.
  - reflexivity.
  - rewrite Hwait.
    pose proof (yn_onKeypress_waiting (character e) (key e) s Hres) as Hk.
    destruct (YesNo.assigned _ (key e)) as [b|].
    + destruct Hk as [Hb Hr].
      destruct rest; simpl; [|rewrite Hr]; auto.
    + rewrite Hk. exact IH.
Qed.

(** The prompt returns the answer of the first resolving key, and stays
    suspended when there is none. *)
Lemma promptYesNo_first_answer (err : WriteStream) (o : IPromptYesNoOptions)
    (events : list KeyEvent) :
  promptYesNo err o events =
  match first_answer (defaultValue o) events with
  | Some b => Some (Some b)
  | None => None
  end.
Proof.
  unfold promptYesNo, startAsync.
  pose proof (yn_deliver events (onStart (YesNo.create err o))
                eq_refl eq_refl) as Hd.
  cbn [base onStart YesNo.prompt] in *.
  change (defaultValue (YesNo.options (YesNo.onStart (YesNo.create err o))))
    with (defaultValue o) in Hd.
  destruct (first_answer (defaultValue o) events) as [b|].
  - destruct Hd as [Hb Hr]. rewrite Hr, Hb. reflexivity.
  - rewrite Hd. reflexivity.
Qed.

(** The result does not depend on when the engine stops delivering: were
    every keystroke handed to [onKeypress], those after the first resolving
    key would change nothing. *)
Lemma yn_result_of_all_keys (events : list KeyEvent) (s : YesNo.t) :
  YesNo.result s = None ->
  YesNo.result
    (fold_left (fun s e => YesNo.onKeypress (character e) (key e) s) events s)
  = first_answer (defaultValue (YesNo.options s)) events.
Proof.
  revert s. induction events as [|e rest IH]; intros s Hres; simpl.
  - exact Hres.
  - pose proof (yn_onKeypress_waiting (character e) (key e) s Hres) as Hk.
    destruct (YesNo.assigned _ (key e)) as [b|].
    + destruct Hk as [Hb _]. clear IH.
      generalize dependent (YesNo.onKeypress (character e) (key e) s).
      intros s1 Hb. induction rest as [|e' rest IH']; simpl; [exact Hb|].
      rewrite (yn_onKeypress_settled _ _ s1 b Hb). exact IH'.
    + rewrite Hk. apply IH, Hres.
Qed.

(** C1. Whatever the keystrokes, [promptYesNo] returns [true] exactly when
    the first resolving key is [y], or Enter or Return with a default of
    [true], and [false] exactly when it is [n], or Enter or Return with a
    default of [false]; with no default, Enter and Return leave a waiting
    loop as it is, and keystrokes made of them alone never resolve it. *)
Theorem promptYesNo_first_resolving_key (err : WriteStream)
    (o : IPromptYesNoOptions) (events : list KeyEvent) :
  (forall b : bool,
     promptYesNo err o events = Some (Some b) <->
     exists pre e post,
       events = (pre ++ e :: post)%list /\
       Forall (fun e' => forall b', ~ resolves_to (defaultValue o) (key e') b')
         pre /\
       resolves_to (defaultValue o) (key e) b) /\
  (defaultValue o = None ->
     (forall (s : YesNo.t) (c : string) (k : Key),
        YesNo.options s = o -> YesNo.result s = None -> is_enter k ->
        YesNo.onKeypress c k s = s) /\
     (Forall (fun e => is_enter (key e)) events ->
      promptYesNo err o events = None)).
Proof.
  split.
  - intros b. rewrite promptYesNo_first_answer.
    transitivity (first_answer (defaultValue o) events = Some b).
    { destruct (first_answer (defaultValue o) events);
        split; congruence. }
    rewrite first_answer_split.
    split; intros (pre & e & post & E & Hpre & He);
      exists pre, e, post; (split; [exact E|]); split.
    + eapply Forall_impl; [|exact Hpre]. intros a. apply assigned_none.
    + apply assigned_resolves, He.
    + eapply Forall_impl; [|exact Hpre]. intros a. apply assigned_none.
    + apply assigned_resolves, He.
  - intros Hd.
    assert (Henter : forall k, is_enter k ->
              YesNo.assigned (defaultValue o) k = None).
    { intros k Hk. apply assigned_none. intros b R. rewrite Hd in R.
      destruct Hk as [Hk|Hk]; destruct b; unfold resolves_to in R;
        rewrite Hk in R; intuition discriminate. }
    split.
    + intros s c k <- Hres Hk.
      pose proof (yn_onKeypress_waiting c k s Hres) as Hw.
      rewrite (Henter k Hk) in Hw. exact Hw.
    + intros Hall. rewrite promptYesNo_first_answer.
      replace (first_answer (defaultValue o) events) with (@None bool);
        [reflexivity|].
      induction Hall as [|e rest He _ IH]; simpl; [reflexivity|].
      rewrite (Henter _ He). exact IH.
Qed.

(** C10. A keystroke resolves the yes/no loop only together with a result
    that is [true] or [false], so [promptYesNo], when it returns, returns a
    boolean and never [undefined]. *)
Theorem promptYesNo_result_defined (err : WriteStream)
    (o : IPromptYesNoOptions) (events : list KeyEvent) :
  (forall (s : YesNo.t) (c : string) (k : Key),
     resolved (YesNo.super (YesNo.onKeypress c k s)) = resolved (YesNo.super s)
     \/ exists b, YesNo.result (YesNo.onKeypress c k s) = Some b) /\
  (promptYesNo err o events = None \/
   exists b, promptYesNo err o events = Some (Some b)).
Proof.
  split.
  - intros s c k. destruct (YesNo.result s) as [b|] eqn:Hres.
    + left. rewrite (yn_onKeypress_settled c k s b Hres). reflexivity.
    + pose proof (yn_onKeypress_waiting c k s Hres) as Hw.
      destruct (YesNo.assigned _ k) as [b|].
      * right. exists b. apply Hw.
      * left. rewrite Hw. reflexivity.
  - rewrite promptYesNo_first_answer.
    destruct (first_answer (defaultValue o) events) as [b|];
      [right; exists b|left]; reflexivity.
Qed.

End YesNoFacts.

(** ** Strings *)

Lemma append_empty_r (s : string) : s ++ "" = s.
Proof. induction s; simpl; congruence. Qed.

Lemma append_assoc (a b c : string) : (a ++ b) ++ c = a ++ (b ++ c).
Proof. induction a; simpl; congruence. Qed.

Lemma length_append (a b : string) :
  String.length (a ++ b) = (String.length a + String.length b)%nat.
Proof. induction a; simpl; congruence. Qed.

Lemma strip_nl_append (a b : string) :
  strip_nl (a ++ b) = strip_nl a ++ strip_nl b.
Proof.
  induction a as [|c a IH]; simpl; [reflexivity|].
  destruct (Ascii.eqb c Js.nl_char); simpl; congruence.
Qed.

Lemma count_nl_append (a b : string) :
  count_nl (a ++ b) = count_nl a + count_nl b.
Proof. induction a as [|c a IH]; simpl; lia. Qed.

Lemma copies_succ_r (a : ascii) (n : nat) :
  copies a n ++ String a "" = copies a (Datatypes.S n).
Proof. induction n as [|n IH]; simpl; [|rewrite IH]; reflexivity. Qed.

Lemma substring_none (s : string) : String.substring 0 0 s = "".
Proof. destruct s; reflexivity. Qed.

Lemma substring_whole (s : string) :
  String.substring 0 (String.length s) s = s.
Proof. induction s as [|c s IH]; simpl; congruence. Qed.

Lemma substring_snoc (s : string) (n : nat) :
  (n < String.length s)%nat ->
  String.substring 0 (Datatypes.S n) s
  = String.substring 0 n s ++ String.substring n 1 s.
Proof.
  revert n. induction s as [|c s IH]; intros n Hn; simpl in Hn; [lia|].
  destruct n as [|n].
  - simpl. rewrite !substring_none. reflexivity.
  - change (String.substring 0 (Datatypes.S (Datatypes.S n)) (String c s))
      with (String c (String.substring 0 (Datatypes.S n) s)).
    rewrite IH by lia. reflexivity.
Qed.

(** [s.substr(i, 1)] is the character at [i], for an index of [s]. *)
Lemma js_substr_one (s : string) (i : Z) :
  0 <= i < Js.length s ->
  Js.substr s i 1 = String.substring (Z.to_nat i) 1 s.
Proof.
  unfold Js.substr, Js.length. intros Hi.
  replace (i <? 0) with false by (symmetry; apply Z.ltb_ge; lia).
  f_equal; lia.
Qed.

Lemma remove_last_snoc (r : string) (a : ascii) :
  remove_last (r ++ String a "") = r.
Proof.
  induction r as [|c r IH]; simpl; [reflexivity|].
  rewrite IH. destruct r; reflexivity.
Qed.

Lemma remove_last_length (s : string) :
  String.length (remove_last s) = Nat.pred (String.length s).
Proof.
  induction s as [|c s IH]; [reflexivity|].
  destruct s as [|c' s]; [reflexivity|].
  change (remove_last (String c (String c' s)))
    with (String c (remove_last (String c' s))).
  cbn [String.length]. rewrite IH. reflexivity.
Qed.

Lemma substring_all_but_last (s : string) :
  String.substring 0 (Nat.pred (String.length s)) s = remove_last s.
Proof.
  induction s as [|c s IH]; simpl; [reflexivity|].
  destruct s as [|c' s]; [reflexivity|].
  simpl in *. rewrite IH. reflexivity.
Qed.

(** [s.substr(0, 1)] is the first character of a string that has one. *)
Lemma js_substr_first (a : ascii) (rest : string) :
  Js.substr (String a rest) 0 1 = String a "".
Proof.
  rewrite js_substr_one.
  - simpl. apply f_equal, substring_none.
  - unfold Js.length. simpl String.length. lia.
Qed.

(** [result.substring(0, result.length - 1)] drops the last character, if
    there is one. *)
Lemma js_substring_remove_last (s : string) :
  Js.substring s 0 (Js.length s - 1) = remove_last s.
Proof.
  unfold Js.substring, Js.clamp, Js.length.
  rewrite <- substring_all_but_last. f_equal; lia.
Qed.

(** ** The password prompt: the keystroke and the buffer *)

Lemma truthy_carries (o : option string) : Js.truthy o = true <-> carries o.
Proof.
  unfold Js.truthy, carries. destruct o as [s|].
  - rewrite negb_true_iff, String.eqb_neq. split.
    + intros N. exists s. auto.
    + intros (s' & [= <-] & N). exact N.
  - split; [discriminate|]. intros (s & E & _). discriminate.
Qed.

(** A printable event is neither Enter, Return nor Backspace: a name of
    more than one character that is not [space] rules it out. *)
Lemma printable_not_named (c : string) (k : Key) :
  Password.printable c k = true ->
  name_is k "enter" = false /\ name_is k "return" = false /\
  name_is k "backspace" = false.
Proof.
  intros P. unfold Password.printable, name_is in P. unfold name_is.
  destruct (name k) as [n|]; [|auto].
  repeat split; apply String.eqb_neq; intros ->; simpl in P;
    destruct (c =? "")%string; discriminate.
Qed.

(** Backspace is never printable. *)
Lemma backspace_not_printable (c : string) (k : Key) :
  name_is k "backspace" = true -> Password.printable c k = false.
Proof.
  intros B. destruct (Password.printable c k) eqn:P; [|reflexivity].
  apply printable_not_named in P. destruct P as (_ & _ & P). congruence.
Qed.

(** The buffer after [edit] is the buffer of the specification. *)
Lemma edit_typed (c : string) (k : Key) (s : Password.t) :
  Password.result (Password.edit c k s) =
  typed [{| character := c; key := k |}] (Password.result s).
Proof.
  unfold Password.edit. simpl.
  destruct (name_is k "backspace") eqn:B.
  - rewrite (backspace_not_printable c k B). simpl.
    apply js_substring_remove_last.
  - destruct (Password.printable c k); reflexivity.
Qed.

(** ** Loops *)

Section WhileRules.

Context {S : Type} (cond : S -> bool) (body : S -> S).

(** An invariant kept by every round holds when the loop is left, and the
    loop is left by its test, not for want of fuel, when a measure that
    every round decreases fits in the fuel. *)
Lemma while_loop_rule (I : S -> Prop) (m : S -> nat) :
  (forall s, I s -> cond s = true -> I (body s) /\ (m (body s) < m s)%nat) ->
  forall fuel s, (m s <= fuel)%nat -> I s ->
  I (while_loop cond body fuel s) /\
  cond (while_loop cond body fuel s) = false.
Proof.
  intros Hstep. induction fuel as [|fuel IH]; intros s Hm Hi; simpl.
  - split; [exact Hi|].
    destruct (cond s) eqn:C; [|reflexivity].
    destruct (Hstep s Hi C). lia.
  - destruct (cond s) eqn:C.
    + destruct (Hstep s Hi C). apply IH; [lia|assumption].
    + auto.
Qed.

(** Two runs that start in related states stay related. *)
Lemma while_loop_sim (R : S -> S -> Prop) :
  (forall a b, R a b -> cond a = cond b) ->
  (forall a b, R a b -> cond a = true -> R (body a) (body b)) ->
  forall fuel a b, R a b ->
  R (while_loop cond body fuel a) (while_loop cond body fuel b).
Proof.
  intros Hcond Hbody. induction fuel as [|fuel IH]; intros a b Hr; simpl.
  - exact Hr.
  - rewrite <- (Hcond a b Hr). destruct (cond a) eqn:C; auto.
Qed.

End WhileRules.

(** ** The password prompt: the drawing loop *)

Lemma draw_on_object (s : Password.t) (pc : string) (f : Password.Frame) :
  on_object s f -> on_object s (Password.draw pc f).
Proof.
  unfold on_object, Password.draw, Password.wrap. intros Hs.
  destruct (Password.column (Password.advance pc f) >=? _); simpl.
  - rewrite Hs. reflexivity.
  - exact Hs.
Qed.

Lemma draw_i (pc : string) (f : Password.Frame) :
  Password.i (Password.draw pc f) = Password.i f + 1.
Proof.
  unfold Password.draw, Password.wrap.
  destruct (Password.column (Password.advance pc f) >=? _); reflexivity.
Qed.

(** A property of the frame that every round keeps holds of the frame that
    is written, and the loop has then run through the whole buffer. *)
Lemma drawn_rule (s : Password.t) (P : Password.Frame -> Prop) :
  P (Password.first_frame s) ->
  (forall f, P f -> on_object s f ->
     0 <= Password.i f < Js.length (Password.result s) ->
     P (Password.draw (Password.mask (Password.options s)) f)) ->
  P (Password.drawn s) /\
  on_object s (Password.drawn s) /\
  Password.i (Password.drawn s) = Js.length (Password.result s).
Proof.
  intros Hinit Hstep.
  pose (I := fun f => P f /\ on_object s f /\
               0 <= Password.i f <= Js.length (Password.result s)).
  pose (m := fun f => Z.to_nat (Js.length (Password.result s) - Password.i f)).
  assert (Hfirst : I (Password.first_frame s)).
  { repeat split; auto; simpl; unfold Js.length; lia. }
  destruct (while_loop_rule Password.drawing
              (Password.draw (Password.mask (Password.options s))) I m)
    with (fuel := String.length (Password.result s)) (s := Password.first_frame s)
    as [(Hp & Ho & Hi) Hexit].
  - intros f (Hp & Ho & Hi) Hc.
    unfold Password.drawing in Hc. rewrite Ho in Hc. simpl in Hc.
    apply Z.ltb_lt in Hc.
    repeat split.
    + apply Hstep; auto. lia.
    + apply draw_on_object, Ho.
    + rewrite draw_i. lia.
    + rewrite draw_i. lia.
    + unfold m. rewrite draw_i. lia.
  - unfold m, Password.first_frame, Js.length. simpl. lia.
  - exact Hfirst.
  - fold (Password.drawn s) in *. repeat split; auto.
    unfold Password.drawing in Hexit. rewrite Ho in Hexit. simpl in Hexit.
    apply Z.ltb_ge in Hexit. lia.
Qed.

(** The drawing depends on the buffer, the start column, the options and
    the width of the terminal alone. *)
Lemma drawn_same (a b : Password.t) :
  same_drawing a b ->
  Password.buffer (Password.drawn a) = Password.buffer (Password.drawn b) /\
  Password.printedY (Password.self (Password.drawn a))
  = Password.printedY (Password.self (Password.drawn b)).
Proof.
  intros (Hr & Hx & Ho & Hc).
  pose (R := fun f g : Password.Frame =>
          Password.i f = Password.i g /\
          Password.column f = Password.column g /\
          Password.buffer f = Password.buffer g /\
          Password.printedY (Password.self f)
          = Password.printedY (Password.self g) /\
          same_drawing (Password.self f) (Password.self g)).
  assert (HR : R (Password.drawn a) (Password.drawn b)).
  { unfold Password.drawn. rewrite <- Ho, <- Hr.
    apply while_loop_sim.
    - intros f g (Hi & _ & _ & _ & Hres & _).
      unfold Password.drawing. rewrite Hi, Hres. reflexivity.
    - intros f g (Hi & Hcol & Hbuf & Hy & Hres & Hsx & Hopt & Hw) _.
      unfold Password.draw, Password.wrap, Password.getLineWrapWidth.
      cbn [Password.advance Password.self Password.column].
      rewrite Hcol, Hw.
      destruct (Password.column g + 1 >=? _);
        unfold R, same_drawing; simpl;
        rewrite ?Hi, ?Hcol, ?Hbuf, ?Hres, ?Hy, ?Hsx, ?Hopt, ?Hw; auto 10.
    - unfold R, same_drawing, Password.first_frame. simpl. auto 10. }
  destruct HR as (_ & _ & Hbuf & Hy & _). auto.
Qed.

(** ** The password prompt: the rendering *)

Lemma appended_appended (x y : list TermOp) (s : Password.t) :
  appended y (appended x s) = appended (x ++ y) s.
Proof.
  unfold appended, Password.with_super. simpl.
  rewrite app_assoc. reflexivity.
Qed.

Lemma appended_nil (s : Password.t) : appended [] s = s.
Proof.
  destruct s as [[[c w] r] o x y l res].
  unfold appended, Password.with_super. simpl.
  rewrite app_nil_r. reflexivity.
Qed.

Lemma set_printedY_same (s : Password.t) :
  Password.set_printedY (Password.printedY s) s = s.
Proof. destruct s. reflexivity. Qed.

(** The loop that takes the cursor back to the first row, in closed form. *)
Lemma restore_spec (needsClear : bool) (n : nat) (s : Password.t) :
  n = Z.to_nat (Password.printedY s) ->
  while_loop (fun s => 0 <? Password.printedY s)
    (Password.restore_row needsClear) n s
  = Password.set_printedY (Z.min (Password.printedY s) 0)
      (appended (restore_ops needsClear n) s).
Proof.
  revert s. induction n as [|n IH]; intros s Hn; simpl.
  - unfold restore_ops. simpl. rewrite appended_nil.
    replace (Z.min (Password.printedY s) 0) with (Password.printedY s) by lia.
    symmetry. apply set_printedY_same.
  - replace (0 <? Password.printedY s) with true
      by (symmetry; apply Z.ltb_lt; lia).
    rewrite IH.
    + unfold Password.restore_row, restore_ops, appended, Password.term,
        Password.with_super, Loop.emit, emit.
      destruct needsClear; simpl; rewrite <- !app_assoc; simpl;
        (replace (Z.min (Password.printedY s - 1) 0)
           with (Z.min (Password.printedY s) 0) by lia);
        reflexivity.
    + unfold Password.restore_row.
      destruct needsClear; simpl; lia.
Qed.

(** The rendering in closed form: the operations of [render_ops] go to the
    stream, [_lastPrintedLength] becomes the length of the buffer and
    [_printedY] the number of line breaks of the drawing. *)
Lemma render_spec (s : Password.t) :
  Password.render s
  = Password.set_printedY
      (Password.printedY (Password.self (Password.drawn s)))
      (Password.set_lastPrintedLength (Js.length (Password.result s))
         (appended (render_ops s) s)).
Proof.
  unfold Password.render. cbv zeta.
  set (nc := Js.length (Password.result s) <? Password.lastPrintedLength s).
  rewrite restore_spec by reflexivity.
  match goal with
  | |- context [Password.drawn ?x] => set (s' := x)
  end.
  assert (Hsame : same_drawing s' s).
  { unfold same_drawing, s'. simpl. auto. }
  destruct (drawn_same s' s Hsame) as [Hbuf Hy].
  destruct (drawn_rule s' (fun _ => True) I (fun _ _ _ _ => I))
    as (_ & Hobj & _).
  unfold render_ops. fold nc. clearbody nc.
  destruct nc; rewrite Hobj, Hbuf, Hy;
    unfold s', appended, Password.term, Password.with_super,
      Loop.hideCursor, Loop.unhideCursor, Loop.emit, emit;
    simpl; rewrite <- !app_assoc; reflexivity.
Qed.

Lemma render_result (s : Password.t) :
  Password.result (Password.render s) = Password.result s.
Proof. rewrite render_spec. reflexivity. Qed.

Lemma render_resolved (s : Password.t) :
  resolved (Password.super (Password.render s))
  = resolved (Password.super s).
Proof. rewrite render_spec. reflexivity. Qed.

Lemma render_options (s : Password.t) :
  Password.options (Password.render s) = Password.options s.
Proof. rewrite render_spec. reflexivity. Qed.

Lemma render_printedY (s : Password.t) :
  Password.printedY (Password.render s)
  = Password.printedY (Password.self (Password.drawn s)).
Proof. rewrite render_spec. reflexivity. Qed.

Lemma render_startX (s : Password.t) :
  Password.startX (Password.render s) = Password.startX s.
Proof. rewrite render_spec. reflexivity. Qed.

Lemma render_lastPrintedLength (s : Password.t) :
  Password.lastPrintedLength (Password.render s)
  = Js.length (Password.result s).
Proof. rewrite render_spec. reflexivity. Qed.

Lemma render_written (s : Password.t) :
  written (stderr (Password.super (Password.render s)))
  = (written (stderr (Password.super s)) ++ render_ops s)%list.
Proof. rewrite render_spec. reflexivity. Qed.

Lemma render_same_drawing (s : Password.t) :
  same_drawing (Password.render s) s.
Proof. rewrite render_spec. unfold same_drawing. simpl. auto. Qed.

Lemma skipn_length_app {A : Type} (l x : list A) :
  skipn (List.length l) (l ++ x)%list = x.
Proof. induction l; simpl; auto. Qed.

Lemma pass_output_ops (s : Password.t) : pass_output s = render_ops s.
Proof.
  unfold pass_output. rewrite render_written. apply skipn_length_app.
Qed.

Lemma last_write_app (a b : list TermOp) :
  last_write (a ++ b)%list =
  match last_write b with
  | Some text => Some text
  | None => last_write a
  end.
Proof.
  induction a as [|op a IH]; simpl.
  - destruct (last_write b); reflexivity.
  - rewrite IH. destruct (last_write b); reflexivity.
Qed.

(** The latest text that a rendering writes is the buffer of the drawing. *)
Lemma last_write_render_ops (s : Password.t) :
  last_write (render_ops s) = Some (Password.buffer (Password.drawn s)).
Proof.
  unfold render_ops.
  rewrite app_assoc, last_write_app.
  destruct (Js.length (Password.result s) <? Password.lastPrintedLength s);
    reflexivity.
Qed.

Lemma last_write_render (s : Password.t) :
  last_write (written (stderr (Password.super (Password.render s))))
  = Some (Password.buffer (Password.drawn s)).
Proof.
  rewrite render_written, last_write_app, last_write_render_ops.
  reflexivity.
Qed.

(** A keystroke other than Enter and Return edits the buffer and renders
    it; Enter and Return write a line break and resolve the loop. *)
Lemma pw_onKeypress_edit (c : string) (k : Key) (s : Password.t) :
  name_is k "enter" || name_is k "return" = false ->
  Password.onKeypress c k s = Password.render (Password.edit c k s).
Proof. unfold Password.onKeypress. intros ->. reflexivity. Qed.

Lemma pw_onKeypress_enter (c : string) (k : Key) (s : Password.t) :
  is_enter k ->
  Password.onKeypress c k s
  = Password.with_super Loop.resolveAsync
      (Password.term (Write Js.nl) s).
Proof.
  unfold Password.onKeypress. intros E. apply is_enter_true in E.
  rewrite E. reflexivity.
Qed.

(** [onKeypress] of the password loop has no test of its own for a loop
    that has resolved: a printable keystroke that reached it would join
    the buffer all the same. *)
Lemma pw_onKeypress_printable (c : string) (k : Key) (s : Password.t) :
  Password.printable c k = true ->
  Password.result (Password.onKeypress c k s) = Password.result s ++ c.
Proof.
  intros P. destruct (printable_not_named c k P) as (E1 & E2 & B).
  rewrite pw_onKeypress_edit by (rewrite E1, E2; reflexivity).
  rewrite render_result. unfold Password.edit. rewrite B, P. reflexivity.
Qed.

(** Both loops of the rendering are left by their tests: the fuel they are
    given is enough. *)
Lemma render_loops_exit (needsClear : bool) (s : Password.t) :
  (0 <? Password.printedY
          (while_loop (fun s => 0 <? Password.printedY s)
             (Password.restore_row needsClear)
             (Z.to_nat (Password.printedY s)) s)) = false /\
  Password.drawing (Password.drawn s) = false.
Proof.
  split.
  - rewrite restore_spec by reflexivity. simpl. apply Z.ltb_ge. lia.
  - destruct (drawn_rule s (fun _ => True) I (fun _ _ _ _ => I))
      as (_ & Hobj & Hi).
    unfold Password.drawing. rewrite Hobj, Hi. simpl. apply Z.ltb_irrefl.
Qed.

(** What a keystroke does to the buffer. *)
Lemma pw_onKeypress_result (c : string) (k : Key) (s : Password.t) :
  Password.result (Password.onKeypress c k s)
  = if Password.printable c k then Password.result s ++ c
    else if name_is k "backspace" then remove_last (Password.result s)
    else Password.result s.
Proof.
  destruct (Password.printable c k) eqn:P.
  - apply pw_onKeypress_printable, P.
  - destruct (name_is k "enter" || name_is k "return") eqn:E.
    + apply is_enter_true in E. rewrite (pw_onKeypress_enter c k s E).
      replace (name_is k "backspace") with false; [reflexivity|].
      symmetry. apply name_is_false.
      destruct E as [E|E]; rewrite E; discriminate.
    + rewrite (pw_onKeypress_edit c k s E), render_result.
      unfold Password.edit. rewrite P.
      destruct (name_is k "backspace"); [|reflexivity].
      apply js_substring_remove_last.
Qed.

(** C6. The masked prompt takes an event for printable exactly when its
    character is not empty, and it carries no named key or one of length 1
    or the key [space], and it carries a named key or a raw sequence; and
    the character of an event joins the buffer exactly when the event is
    printable. *)
Theorem printable_rule (c : string) (k : Key) :
  (Password.printable c k = true <->
   c <> "" /\
   (~ carries (name k) \/
    (exists n, name k = Some n /\ String.length n = 1%nat) \/
    name k = Some "space") /\
   (carries (name k) \/ carries (sequence k))) /\
  (forall s : Password.t,
     Password.result (Password.onKeypress c k s)
     = if Password.printable c k then Password.result s ++ c
       else if name_is k "backspace" then remove_last (Password.result s)
       else Password.result s).
Proof.
  split; [|intros s; apply pw_onKeypress_result].
  unfold Password.printable.
  rewrite <- !truthy_carries, <- (name_is_true k "space").
  assert (Hlen : match name k with
                 | Some n => Js.length n =? 1
                 | None => false
                 end = true <->
                 exists n, name k = Some n /\ String.length n = 1%nat).
  { destruct (name k) as [n|].
    - rewrite Z.eqb_eq. unfold Js.length. split.
      + intros E. exists n. split; [reflexivity|lia].
      + intros (n' & [= <-] & E). lia.
    - split; [discriminate|]. intros (n & E & _). discriminate. }
  rewrite <- Hlen. clear Hlen.
  destruct (String.eqb_spec c "") as [->|Hc].
  { split; [discriminate|]. intros [N _]. congruence. }
  destruct (Js.truthy (name k)), (Js.truthy (sequence k)),
    (match name k with Some n => Js.length n =? 1 | None => false end),
    (name_is k "space"); simpl;
    split; intros; try discriminate; try reflexivity;
    intuition (try discriminate; try congruence).
Qed.

(** C7. Backspace takes the last character off the buffer of the masked
    prompt, and leaves an empty buffer empty: its length stays 0 and is
    never negative. *)
Theorem backspace_removes_last (s : Password.t) (c : string)
    (seq : option string) :
  let s' :=
    Password.onKeypress c {| name := Some "backspace"; sequence := seq |} s in
  Password.result s' = remove_last (Password.result s) /\
  (forall r a, Password.result s = r ++ String a "" ->
               Password.result s' = r) /\
  (Password.result s = "" ->
   Password.result s' = "" /\ Js.length (Password.result s') = 0) /\
  0 <= Js.length (Password.result s').
Proof.
  intros s'.
  assert (E : Password.result s' = remove_last (Password.result s)).
  { unfold s'. rewrite pw_onKeypress_edit by reflexivity.
    rewrite render_result, edit_typed. reflexivity. }
  split; [exact E|]. split.
  - intros r a Hr. rewrite E, Hr. apply remove_last_snoc.
  - split.
    + intros Hempty. rewrite E, Hempty. split; reflexivity.
    + unfold Js.length. lia.
Qed.

(** ** The password prompt: what is drawn *)

(** With a mask that starts with a character other than the line feed,
    the drawing is one copy of that character for each character of the
    buffer, and line breaks. *)
Lemma drawn_masked (s : Password.t) (a : ascii) :
  Password.mask (Password.options s) = String a "" ->
  a <> Js.nl_char ->
  strip_nl (Password.buffer (Password.drawn s))
  = copies a (String.length (Password.result s)).
Proof.
  intros Hm Ha. apply Ascii.eqb_neq in Ha.
  destruct (drawn_rule s
              (fun f => strip_nl (Password.buffer f)
                        = copies a (Z.to_nat (Password.i f))))
    as (Hp & _ & Hi).
  - reflexivity.
  - intros f Hf _ Hrange. rewrite Hm, draw_i.
    replace (Z.to_nat (Password.i f + 1))
      with (Datatypes.S (Z.to_nat (Password.i f))) by lia.
    rewrite <- copies_succ_r, <- Hf.
    unfold Password.draw, Password.wrap.
    destruct (Password.column (Password.advance (String a "") f) >=? _);
      simpl; rewrite ?strip_nl_append; simpl; rewrite Ha;
      rewrite ?append_empty_r; reflexivity.
  - rewrite Hp, Hi. unfold Js.length. rewrite Nat2Z.id. reflexivity.
Qed.

Lemma drawn_stars (s : Password.t) :
  Password.mask (Password.options s) = "*" ->
  strip_nl (Password.buffer (Password.drawn s))
  = stars (String.length (Password.result s)).
Proof.
  intros Hm. apply drawn_masked; [exact Hm|discriminate].
Qed.

(** With the empty mask, the drawing is the buffer itself, and line
    breaks. *)
Lemma drawn_plain (s : Password.t) :
  Password.mask (Password.options s) = "" ->
  strip_nl (Password.buffer (Password.drawn s))
  = strip_nl (Password.result s).
Proof.
  intros Hm.
  destruct (drawn_rule s
              (fun f => strip_nl (Password.buffer f)
                        = strip_nl (String.substring 0 (Z.to_nat (Password.i f))
                                      (Password.result s))))
    as (Hp & _ & Hi).
  - simpl. rewrite substring_none. reflexivity.
  - intros f Hf Hobj Hrange. rewrite Hm, draw_i.
    replace (Z.to_nat (Password.i f + 1))
      with (Datatypes.S (Z.to_nat (Password.i f))) by lia.
    rewrite substring_snoc by (unfold Js.length in Hrange; lia).
    rewrite strip_nl_append, <- Hf, <- js_substr_one by exact Hrange.
    unfold Password.draw, Password.wrap.
    destruct (Password.column (Password.advance "" f) >=? _);
      simpl; rewrite Hobj; simpl; rewrite ?strip_nl_append; simpl;
      rewrite ?append_empty_r; reflexivity.
  - rewrite Hp, Hi. unfold Js.length. rewrite Nat2Z.id, substring_whole.
    reflexivity.
Qed.

(** With the asterisk as the mask, the buffer that is written holds as many
    line feeds as the loop has counted in [_printedY]. *)
Lemma drawn_count_nl (s : Password.t) :
  Password.mask (Password.options s) = "*" ->
  count_nl (Password.buffer (Password.drawn s))
  = Password.printedY (Password.self (Password.drawn s)).
Proof.
  intros Hm.
  destruct (drawn_rule s
              (fun f => count_nl (Password.buffer f)
                        = Password.printedY (Password.self f)))
    as (Hp & _ & _).
  - reflexivity.
  - intros f Hf _ _. rewrite Hm.
    unfold Password.draw, Password.wrap.
    destruct (Password.column (Password.advance "*" f) >=? _); simpl;
      rewrite ?count_nl_append; simpl; lia.
  - exact Hp.
Qed.

(** The wrap-count invariant: the characters drawn so far fill [_printedY]
    whole rows of [W - 1] columns, less the start column, and [column] more. *)
Lemma drawn_rows (s : Password.t) :
  0 <= Password.startX s < Password.getLineWrapWidth s - 1 ->
  Password.printedY (Password.self (Password.drawn s))
  = (Password.startX s + Js.length (Password.result s))
    / (Password.getLineWrapWidth s - 1).
Proof.
  intros Hx.
  set (M := Password.getLineWrapWidth s - 1) in *.
  destruct (drawn_rule s
              (fun f =>
                 Password.startX s + Password.i f
                 = M * Password.printedY (Password.self f)
                   + Password.column f /\
                 0 <= Password.column f < M))
    as ((Hsum & Hcol) & _ & Hi).
  - simpl. lia.
  - intros f (Hsum & Hcol) Hobj _.
    unfold Password.draw, Password.wrap.
    assert (HW : Password.getLineWrapWidth
                   (Password.self
                      (Password.advance
                         (Password.mask (Password.options s)) f)) - 1 = M).
    { simpl. rewrite Hobj. reflexivity. }
    rewrite HW. simpl.
    destruct (Password.column f + 1 >=? M) eqn:C; simpl.
    + apply Z.geb_le in C. lia.
    + assert (Password.column f + 1 < M)
        by (rewrite Z.geb_leb in C; apply Z.leb_gt in C; lia).
      lia.
  - rewrite Hi in Hsum.
    apply Z.div_unique with (r := Password.column (Password.drawn s)).
    + left. exact Hcol.
    + exact Hsum.
Qed.

(** ** The engine *)

Section EngineFacts.

Context {S : Type} `{Prompt S}.

Lemma deliver_resolved (events : list KeyEvent) (s : S) :
  resolved (base s) = true -> deliver events s = s.
Proof. intros Hr. destruct events; simpl; [|rewrite Hr]; reflexivity. Qed.

Lemma deliver_app (a b : list KeyEvent) (s : S) :
  deliver (a ++ b) s = deliver b (deliver a s).
Proof.
  revert s. induction a as [|e a IH]; intros s; simpl; [reflexivity|].
  destruct (resolved (base s)) eqn:Hr.
  - symmetry. apply deliver_resolved, Hr.
  - apply IH.
Qed.

End EngineFacts.

(** ** The password prompt: the claims *)

Section PasswordFacts.

Context `{TextStyle}.

(** Keystrokes other than Enter and Return leave the loop unresolved, with
    the buffer of the specification and the options it had. *)
Lemma pw_deliver_editing (events : list KeyEvent) (s : Password.t) :
  resolved (Password.super s) = false ->
  Forall (fun e => ~ is_enter (key e)) events ->
  resolved (Password.super (deliver events s)) = false /\
  Password.result (deliver events s) = typed events (Password.result s) /\
  Password.options (deliver events s) = Password.options s.
Proof.
  revert s. induction events as [|e rest IH]; intros s Hr Hall.
  - simpl. auto.
  - inversion Hall as [|? ? He Hrest]; subst.
    rewrite <- is_enter_true in He. apply not_true_is_false in He.
    cbn [deliver base onKeypress Password.prompt]. rewrite Hr.
    rewrite (pw_onKeypress_edit _ _ _ He).
    destruct (IH (Password.render
                    (Password.edit (character e) (key e) s)))
      as (Hr' & Hres & Hopt).
    + rewrite render_resolved. unfold Password.edit.
      destruct (name_is (key e) "backspace"),
        (Password.printable (character e) (key e)); exact Hr.
    + exact Hrest.
    + rewrite Hr', Hres, Hopt, render_result, render_options, edit_typed.
      repeat split.
      unfold Password.edit.
      destruct (name_is (key e) "backspace"),
        (Password.printable (character e) (key e)); reflexivity.
Qed.

(** When Enter or Return reaches the masked prompt, the loop writes a line
    break and resolves, the buffer staying as it is; and when every
    keystroke comes in a batch of its own, [promptPasswordLine] returns the
    buffer that the keystrokes before it built: the printable characters in
    order, less those that Backspace removed. *)
Theorem enter_returns_buffer (err : WriteStream)
    (o : IPromptPasswordOptions) (pre : list KeyEvent) (e : KeyEvent)
    (post : list KeyEvent) :
  is_enter (key e) ->
  Forall (fun e' => ~ is_enter (key e')) pre ->
  (forall s : Password.t,
     let s' := Password.onKeypress (character e) (key e) s in
     written (stderr (Password.super s'))
     = (written (stderr (Password.super s)) ++ [Write Js.nl])%list /\
     resolved (Password.super s') = true /\
     Password.result s' = Password.result s) /\
  promptPasswordLine err o (pre ++ e :: post) = Some (typed pre "").
Proof.
  intros He Hpre. split.
  - intros s s'. unfold s'. rewrite (pw_onKeypress_enter _ _ _ He).
    repeat split.
  - unfold promptPasswordLine, startAsync.
    rewrite deliver_app.
    destruct (pw_deliver_editing pre (onStart (Password.create err o)))
      as (Hr & Hres & _); [reflexivity|exact Hpre|].
    set (s1 := deliver pre (onStart (Password.create err o))) in *.
    cbn [deliver base onKeypress Password.prompt]. rewrite Hr.
    rewrite (pw_onKeypress_enter _ _ _ He).
    rewrite deliver_resolved by reflexivity.
    cbn. rewrite Hres. reflexivity.
Qed.

(** C3. After printable keystrokes reach a masked prompt whose mask is the
    asterisk, whatever the width of the terminal, the text written last is
    the rendered buffer and, with its line feeds taken out, it is made of as
    many asterisks as the buffer has characters. *)
Theorem masked_rendering_is_stars (s : Password.t) (es : list KeyEvent)
    (e : KeyEvent) :
  Password.mask (Password.options s) = "*" ->
  resolved (Password.super s) = false ->
  Forall (fun e' => Password.printable (character e') (key e') = true)
    (es ++ [e]) ->
  let s' := deliver (es ++ [e]) s in
  exists text,
    last_write (written (stderr (Password.super s'))) = Some text /\
    strip_nl text = stars (String.length (Password.result s')) /\
    Password.result s' = typed (es ++ [e]) (Password.result s).
Proof.
  intros Hm Hr Hall s'.
  assert (Hkeys : Forall (fun e' => ~ is_enter (key e')) (es ++ [e])).
  { eapply Forall_impl; [|exact Hall]. intros a Pa Ea.
    apply printable_not_named in Pa. destruct Pa as (P1 & P2 & _).
    apply is_enter_true in Ea. rewrite P1, P2 in Ea. discriminate. }
  destruct (pw_deliver_editing (es ++ [e]) s Hr Hkeys) as (_ & Hres & _).
  apply Forall_app in Hkeys. destruct Hkeys as [Hes He].
  destruct (pw_deliver_editing es s Hr Hes) as (Hr1 & _ & Hopt).
  inversion He as [|? ? He' _]; subst.
  rewrite <- is_enter_true in He'. apply not_true_is_false in He'.
  assert (Hs' : s' = Password.render
                       (Password.edit (character e) (key e) (deliver es s))).
  { unfold s'. rewrite deliver_app.
    cbn [deliver base onKeypress Password.prompt]. rewrite Hr1.
    apply pw_onKeypress_edit, He'. }
  exists (Password.buffer
            (Password.drawn
               (Password.edit (character e) (key e) (deliver es s)))).
  rewrite Hs' at 1 2. rewrite last_write_render, render_result.
  repeat split.
  - apply drawn_stars.
    unfold Password.edit.
    destruct (name_is (key e) "backspace"),
      (Password.printable (character e) (key e)); simpl;
      rewrite Hopt; exact Hm.
  - exact Hres.
Qed.

End PasswordFacts.

(** C4, as the code has it. When the start column lies before the column
    that is kept free, [0 <= _startX < W - 1], the rendering breaks the line
    [floor((_startX + L) / (W - 1)) - floor(_startX / (W - 1))] times for a
    buffer of [L] characters on a terminal of width [W]; with the asterisk
    as the mask that is also the number of line feeds in the text written. *)
Theorem wrap_count_law (s : Password.t) :
  0 <= Password.startX s < Password.getLineWrapWidth s - 1 ->
  wrap_law s /\
  (Password.mask (Password.options s) = "*" ->
   count_nl (Password.buffer (Password.drawn s))
   = (Password.startX s + Js.length (Password.result s))
     / (Password.getLineWrapWidth s - 1)
     - Password.startX s / (Password.getLineWrapWidth s - 1)).
Proof.
  intros Hx.
  assert (Hlaw : wrap_law s).
  { unfold wrap_law. cbv zeta.
    rewrite render_printedY, (drawn_rows s Hx), (Z.div_small (Password.startX s))
      by exact Hx.
    lia. }
  split; [exact Hlaw|].
  intros Hm. rewrite (drawn_count_nl s Hm), <- render_printedY. exact Hlaw.
Qed.

(** C4, as the specification states it, fails when the prefix ends in the
    last column: with [_startX = 9] on a terminal of width 10, one character
    breaks the line once, and the law gives [10 / 9 - 9 / 9 = 0]. *)
Lemma wrap_count_law_last_column :
  Password.startX last_column_loop = 9 /\
  Password.getLineWrapWidth last_column_loop = 10 /\
  Password.result last_column_loop = "a" /\
  Password.printedY (Password.render last_column_loop) = 1 /\
  ~ wrap_law last_column_loop.
Proof.
  unfold wrap_law. vm_compute. repeat split. discriminate.
Qed.

(** C5, as the code has it. With [_startX = 5] on a terminal of width 10
    and ["abcdef"] typed, the column reaches 9 in the fourth round of the
    drawing, where the line breaks, and [_printedY] is 1 at the end. *)
Theorem scenario3_wraps_at_fourth : scenario3 4.
Proof. unfold scenario3. vm_compute. repeat split. Qed.

(** C5, as the specification states it, fails: in the fifth round the
    column is 1, the line having broken one round before. *)
Lemma scenario3_not_at_fifth :
  Password.column (mid_round scenario3_loop 5) = 1 /\ ~ scenario3 5.
Proof.
  split; [vm_compute; reflexivity|].
  unfold scenario3. intros (_ & _ & Hc & _). vm_compute in Hc. discriminate.
Qed.

(** C8. With no mask configured the mask is the asterisk; a mask of more
    than one character is cut to its first character and used; and with the
    empty mask the characters typed are written as they are. *)
Theorem mask_character (s : Password.t) (q : string) :
  Password.mask {| pw_question := q; passwordCharacter := None |} = "*" /\
  (forall a rest,
     Password.mask
       {| pw_question := q; passwordCharacter := Some (String a rest) |}
     = String a "") /\
  (forall a rest,
     passwordCharacter (Password.options s) = Some (String a rest) ->
     a <> Js.nl_char ->
     strip_nl (Password.buffer (Password.drawn s))
     = copies a (String.length (Password.result s))) /\
  (passwordCharacter (Password.options s) = Some "" ->
   Password.mask (Password.options s) = "" /\
   strip_nl (Password.buffer (Password.drawn s))
   = strip_nl (Password.result s)).
Proof.
  assert (Hcut : forall o a rest,
            passwordCharacter o = Some (String a rest) ->
            Password.mask o = String a "").
  { intros o a rest Ho. unfold Password.mask. rewrite Ho.
    apply js_substr_first. }
  split; [reflexivity|]. split.
  - intros a rest. apply (Hcut _ a rest). reflexivity.
  - split.
    + intros a rest Ho Ha. apply drawn_masked; [|exact Ha].
      apply (Hcut _ a rest Ho).
    + intros Hempty.
      assert (Hm : Password.mask (Password.options s) = "")
        by (unfold Password.mask; rewrite Hempty; reflexivity).
      split; [exact Hm|apply drawn_plain, Hm].
Qed.

(** A rendering of a buffer that was rendered just before does not clear,
    and takes the cursor up by the rows of that drawing. *)
Lemma render_ops_rerender (s : Password.t) :
  render_ops (Password.render s)
  = ([HideCursor]
     ++ restore_ops false
          (Z.to_nat (Password.printedY (Password.self (Password.drawn s))))
     ++ [CursorTo (Password.startX s);
         Write (Password.buffer (Password.drawn s));
         UnhideCursor])%list.
Proof.
  destruct (drawn_same _ _ (render_same_drawing s)) as [Hbuf _].
  unfold render_ops. rewrite Hbuf.
  rewrite !render_result, !render_lastPrintedLength, render_printedY,
    render_startX, Z.ltb_irrefl.
  reflexivity.
Qed.

(** C9. Rendering a buffer again gives the same output, byte for byte:
    the text of the buffer that a rendering writes is the same at every
    rendering of an unchanged buffer, and two renderings in a row of a
    buffer that is on the screen write the same operations. *)
Theorem rerender_idempotent (s : Password.t) :
  last_write (pass_output s) = Some (Password.buffer (Password.drawn s)) /\
  last_write (pass_output (Password.render s))
  = Some (Password.buffer (Password.drawn s)) /\
  pass_output (Password.render (Password.render s))
  = pass_output (Password.render s).
Proof.
  destruct (drawn_same _ _ (render_same_drawing s)) as [Hbuf Hy].
  rewrite !pass_output_ops, !last_write_render_ops, Hbuf.
  repeat split.
  rewrite !render_ops_rerender, Hbuf, Hy, render_startX. reflexivity.
Qed.

(** The first rendering after Backspace is not such a rendering: it clears
    the rest of the line, which the next one does not. *)
Remark render_after_backspace_clears :
  In (ClearLine 1) (pass_output after_backspace_loop) /\
  ~ In (ClearLine 1) (pass_output (Password.render after_backspace_loop)).
Proof.
  split.
  - vm_compute. tauto.
  - vm_compute. intuition discriminate.
Qed.

(** ** The yes/no prompt: what it shows and what it writes *)

Lemma assigned_enter (d : option bool) (k : Key) :
  is_enter k -> YesNo.assigned d k = d.
Proof.
  intros He. unfold YesNo.assigned.
  assert (Hy : name_is k "y" = false)
    by (apply name_is_false; destruct He as [E|E]; rewrite E; discriminate).
  assert (Hn : name_is k "n" = false)
    by (apply name_is_false; destruct He as [E|E]; rewrite E; discriminate).
  apply is_enter_true in He. rewrite Hy, Hn, He. reflexivity.
Qed.

(** The suffix of the question tells what Enter and Return do: they answer
    yes exactly under [(Y/n)], no exactly under [(y/N)], and nothing
    exactly under [(y/n)]. *)
Theorem suffix_announces_enter (d : option bool) (k : Key) :
  is_enter k ->
  (YesNo.assigned d k = Some true <-> YesNo.optionSuffix d = "(Y/n)") /\
  (YesNo.assigned d k = Some false <-> YesNo.optionSuffix d = "(y/N)") /\
  (YesNo.assigned d k = None <-> YesNo.optionSuffix d = "(y/n)").
Proof.
  intros He. rewrite (assigned_enter d k He).
  destruct d as [[|]|]; simpl; repeat split; intros E;
    try reflexivity; discriminate E.
Qed.

Section YesNoOutput.

Context `{TextStyle}.

Lemma yn_onKeypress_answer (c : string) (k : Key) (s : YesNo.t) (b : bool) :
  YesNo.result s = None ->
  YesNo.assigned (defaultValue (YesNo.options s)) k = Some b ->
  YesNo.onKeypress c k s
  = YesNo.with_super Loop.resolveAsync
      (YesNo.write (if b then "Yes" ++ Js.nl else "No" ++ Js.nl)
         (YesNo.set_result (Some b) s)).
Proof.
  unfold YesNo.onKeypress. intros -> ->. reflexivity.
Qed.

(** The loop after the keystrokes: as it was when none of them resolves,
    else with the answer of the first resolving key, its echo written and
    the loop resolved. *)
Lemma yn_deliver_state (events : list KeyEvent) (s : YesNo.t) :
  YesNo.result s = None ->
  resolved (YesNo.super s) = false ->
  deliver events s
  = match first_answer (defaultValue (YesNo.options s)) events with
    | Some b =>
        YesNo.with_super Loop.resolveAsync
          (YesNo.write (if b then "Yes" ++ Js.nl else "No" ++ Js.nl)
             (YesNo.set_result (Some b) s))
    | None => s
    end.
Proof.
  intros Hres Hwait. induction events as [|e rest IH]; simpl.
  - reflexivity.
  - rewrite Hwait.
    destruct (YesNo.assigned _ (key e)) as [b|] eqn:Ha.
    + rewrite (yn_onKeypress_answer _ _ s b Hres Ha).
      destruct rest; reflexivity.
    + pose proof (yn_onKeypress_waiting (character e) (key e) s Hres) as Hk.
      rewrite Ha in Hk. rewrite Hk. exact IH.
Qed.

(** All that the yes/no prompt writes: the marker, the question and the
    suffix at the start, nothing for a keystroke it ignores, and [Yes] or
    [No] with a line feed, once, for the first resolving key. *)
Theorem yesno_transcript (err : WriteStream) (o : IPromptYesNoOptions)
    (events : list KeyEvent) :
  written
    (stderr (YesNo.super (deliver events (onStart (YesNo.create err o)))))
  = (written err
     ++ [Write (green "==>" ++ " ");
         Write (bold (yn_question o));
         Write (" " ++ bold (YesNo.optionSuffix (defaultValue o)) ++ " ")]
     ++ match first_answer (defaultValue o) events with
        | Some true => [Write ("Yes" ++ Js.nl)]
        | Some false => [Write ("No" ++ Js.nl)]
        | None => []
        end)%list.
Proof.
  rewrite (yn_deliver_state events (onStart (YesNo.create err o)))
    by reflexivity.
  cbn [onStart YesNo.prompt].
  change (defaultValue (YesNo.options (YesNo.onStart (YesNo.create err o))))
    with (defaultValue o).
  destruct (first_answer (defaultValue o) events) as [[|]|];
    simpl; rewrite <- ?app_assoc; simpl; rewrite ?app_nil_r; reflexivity.
Qed.

(** Once the result is set, keystrokes are ignored: however many reach
    [onKeypress], the loop stays as it is, with nothing more written. *)
Theorem yesno_ignores_keys_after_answer (s : YesNo.t) (b : bool)
    (events : list KeyEvent) :
  YesNo.result s = Some b ->
  keypresses events s = s.
Proof.
  intros Hb. unfold keypresses.
  induction events as [|e rest IH]; simpl; [reflexivity|].
  cbn [onKeypress YesNo.prompt].
  rewrite (yn_onKeypress_settled _ _ s b Hb). exact IH.
Qed.

End YesNoOutput.

(** ** The password prompt: the operations of a rendering *)

Lemma restore_ops_in (needsClear : bool) (n : nat) (op : TermOp) :
  In op (restore_ops needsClear n) ->
  op = CursorTo 0 \/ (needsClear = true /\ op = ClearLine 1)
  \/ op = MoveCursor 0 (-1).
Proof.
  unfold restore_ops. induction n as [|n IH]; simpl; [tauto|].
  destruct needsClear; simpl; intuition auto.
Qed.

Lemma ups_app (a b : list TermOp) : ups (a ++ b)%list = ups a + ups b.
Proof.
  induction a as [|op a IH]; [reflexivity|].
  destruct op as [| | |dx dy| |]; try exact IH.
  destruct dx as [|p|p]; try exact IH.
  destruct dy as [|p|[p|p|]]; try exact IH.
  cbn [ups app]. rewrite IH. lia.
Qed.

Lemma restore_ops_ups (needsClear : bool) (n : nat) :
  ups (restore_ops needsClear n) = Z.of_nat n.
Proof.
  unfold restore_ops. induction n as [|n IH]; [reflexivity|].
  cbn [repeat List.concat]. rewrite ups_app, IH, Nat2Z.inj_succ.
  destruct needsClear; simpl ups; lia.
Qed.

(** The line breaks counted by the drawing are never negative. *)
Lemma drawn_printedY_nonneg (s : Password.t) :
  0 <= Password.printedY (Password.self (Password.drawn s)).
Proof.
  destruct (drawn_rule s
              (fun f => 0 <= Password.printedY (Password.self f)))
    as (Hp & _ & _).
  - simpl. lia.
  - intros f Hf _ _. unfold Password.draw, Password.wrap.
    destruct (Password.column _ >=? _); simpl; lia.
  - exact Hp.
Qed.

(** A rendering hides the cursor first and shows it last, and does neither
    in between. *)
Theorem render_hides_cursor_once (s : Password.t) :
  exists mid,
    pass_output s = ([HideCursor] ++ mid ++ [UnhideCursor])%list /\
    ~ In HideCursor mid /\ ~ In UnhideCursor mid.
Proof.
  rewrite pass_output_ops. unfold render_ops.
  set (nc := Js.length (Password.result s) <? Password.lastPrintedLength s).
  exists (restore_ops nc (Z.to_nat (Password.printedY s))
          ++ [CursorTo (Password.startX s);
              Write (Password.buffer (Password.drawn s))]
          ++ (if nc then [ClearLine 1] else []))%list.
  split.
  - rewrite <- !app_assoc. reflexivity.
  - split; intros Hin; apply in_app_or in Hin;
      destruct Hin as [Hin|Hin];
      try (apply restore_ops_in in Hin;
           destruct Hin as [E|[[_ E]|E]]; discriminate E);
      destruct nc; simpl in Hin; intuition discriminate.
Qed.

Lemma render_ops_clear (s : Password.t) :
  In (ClearLine 1) (render_ops s) <->
  Js.length (Password.result s) < Password.lastPrintedLength s.
Proof.
  unfold render_ops. rewrite <- Z.ltb_lt.
  destruct (Js.length (Password.result s) <? Password.lastPrintedLength s).
  - split; [reflexivity|]. intros _.
    apply in_cons, in_or_app. right. simpl. auto.
  - split; [|discriminate]. intros Hin. simpl in Hin.
    destruct Hin as [E|Hin]; [discriminate E|].
    apply in_app_or in Hin. destruct Hin as [Hin|Hin].
    + apply restore_ops_in in Hin.
      destruct Hin as [E|[[E _]|E]]; discriminate E.
    + simpl in Hin. intuition discriminate.
Qed.

(** The rest of the line is cleared exactly when the buffer is shorter than
    at the rendering before; so, in a loop whose buffer is on the screen,
    exactly by a Backspace that takes a character away. *)
Theorem clears_exactly_when_shorter (s : Password.t) (c : string) (k : Key) :
  (In (ClearLine 1) (pass_output s) <->
   Js.length (Password.result s) < Password.lastPrintedLength s) /\
  (Password.lastPrintedLength s = Js.length (Password.result s) ->
   (In (ClearLine 1) (pass_output (Password.edit c k s)) <->
    name k = Some "backspace" /\ Password.result s <> "")).
Proof.
  split; [rewrite pass_output_ops; apply render_ops_clear|].
  intros Hsync. rewrite pass_output_ops, render_ops_clear.
  assert (Hlen : Password.lastPrintedLength (Password.edit c k s)
                 = Js.length (Password.result s)).
  { unfold Password.edit.
    destruct (name_is k "backspace"), (Password.printable c k); exact Hsync. }
  rewrite Hlen, edit_typed. simpl. rewrite <- name_is_true.
  destruct (name_is k "backspace") eqn:B.
  - unfold Js.length. rewrite remove_last_length.
    destruct (Password.result s) as [|a r]; simpl String.length.
    + split; [lia|]. intros [_ N]. congruence.
    + split; [|lia]. intros _. split; [reflexivity|discriminate].
  - destruct (Password.printable c k).
    + unfold Js.length. rewrite length_append.
      split; [lia|]. intros [E _]. discriminate E.
    + split; [lia|]. intros [E _]. discriminate E.
Qed.

(** A rendering takes the cursor up by [_printedY] rows, and leaves in
    [_printedY] the line breaks it has drawn: the next rendering goes up
    exactly the rows that this one went down. *)
Theorem next_rendering_goes_up_rows_drawn (s : Password.t) :
  ups (pass_output s) = Z.max 0 (Password.printedY s) /\
  0 <= Password.printedY (Password.render s) /\
  ups (pass_output (Password.render s))
  = Password.printedY (Password.self (Password.drawn s)) /\
  (Password.mask (Password.options s) = "*" ->
   ups (pass_output (Password.render s))
   = count_nl (Password.buffer (Password.drawn s))).
Proof.
  assert (Hups : forall x : Password.t,
            ups (pass_output x) = Z.max 0 (Password.printedY x)).
  { intros x. rewrite pass_output_ops. unfold render_ops.
    rewrite !ups_app, restore_ops_ups.
    destruct (Js.length (Password.result x) <? Password.lastPrintedLength x);
      simpl; lia. }
  pose proof (drawn_printedY_nonneg s) as Hy.
  split; [apply Hups|]. split; [rewrite render_printedY; exact Hy|].
  assert (Hnext : ups (pass_output (Password.render s))
                  = Password.printedY (Password.self (Password.drawn s))).
  { rewrite Hups, render_printedY. lia. }
  split; [exact Hnext|].
  intros Hm. rewrite Hnext. symmetry. apply drawn_count_nl, Hm.
Qed.

(** ** The password prompt: what the drawing loop counts *)

Lemma mask_short (o : IPromptPasswordOptions) :
  Password.mask o = "" \/ exists a, Password.mask o = String a "".
Proof.
  unfold Password.mask. destruct (passwordCharacter o) as [[|a rest]|].
  - left. reflexivity.
  - right. exists a. apply js_substr_first.
  - right. exists "*"%char. reflexivity.
Qed.

Lemma substring_one_length (s : string) (n : nat) :
  (n < String.length s)%nat ->
  String.length (String.substring n 1 s) = 1%nat.
Proof.
  revert n. induction s as [|c s IH]; intros n Hn; simpl in Hn; [lia|].
  destruct n as [|n].
  - simpl. rewrite substring_none. reflexivity.
  - simpl. apply IH. lia.
Qed.

(** Whatever the mask, the text written holds one character for each
    character of the buffer, and one line feed for each line break
    counted. *)
Theorem one_glyph_per_character (s : Password.t) :
  Js.length (Password.buffer (Password.drawn s))
  = Js.length (Password.result s)
    + Password.printedY (Password.self (Password.drawn s)).
Proof.
  destruct (drawn_rule s
              (fun f => Js.length (Password.buffer f)
                        = Password.i f + Password.printedY (Password.self f)))
    as (Hp & _ & Hi).
  - reflexivity.
  - intros f Hf Hobj Hrange.
    assert (Hglyph :
              Js.length
                (Password.buffer
                   (Password.advance (Password.mask (Password.options s)) f))
              = Js.length (Password.buffer f) + 1).
    { unfold Password.advance, Js.length. simpl.
      rewrite length_append.
      destruct (mask_short (Password.options s)) as [Hm|[a Hm]];
        rewrite Hm; simpl.
      - rewrite Hobj. simpl. rewrite js_substr_one by exact Hrange.
        rewrite substring_one_length by (unfold Js.length in Hrange; lia).
        lia.
      - lia. }
    unfold Password.draw, Password.wrap.
    destruct (Password.column _ >=? _).
    + cbn [Password.buffer Password.i Password.self Password.printedY
             Password.set_printedY].
      unfold Js.length in *. rewrite length_append.
      change (String.length Js.nl) with 1%nat.
      cbn [Password.i Password.advance Password.self] in *. lia.
    + rewrite Hglyph, Hf. simpl. lia.
  - rewrite Hp, Hi. reflexivity.
Qed.

(** On a terminal of width 1 or 2 the loop still ends, with a line break
    after every character. *)
Theorem narrow_terminal_breaks_every_character (s : Password.t) :
  Password.getLineWrapWidth s <= 2 ->
  0 <= Password.startX s ->
  Password.printedY (Password.render s) = Js.length (Password.result s) /\
  Password.i (Password.drawn s) = Js.length (Password.result s).
Proof.
  intros HW Hx.
  destruct (drawn_rule s
              (fun f => Password.printedY (Password.self f) = Password.i f /\
                        0 <= Password.column f))
    as ((Hp & _) & _ & Hi).
  - simpl. lia.
  - intros f (Hf & Hcol) Hobj _.
    unfold Password.draw, Password.wrap.
    assert (HWf : Password.getLineWrapWidth
                    (Password.self
                       (Password.advance
                          (Password.mask (Password.options s)) f))
                  = Password.getLineWrapWidth s).
    { simpl. rewrite Hobj. reflexivity. }
    rewrite HWf.
    replace (Password.column
               (Password.advance (Password.mask (Password.options s)) f)
             >=? Password.getLineWrapWidth s - 1) with true.
    + simpl. lia.
    + symmetry. rewrite Z.geb_leb. apply Z.leb_le. simpl. lia.
  - rewrite render_printedY, Hp, Hi. auto.
Qed.

(** When the prefix ends in the last column or beyond, on a terminal of
    width 2 at least, the line breaks right after the first character and
    then after every [W - 1] characters. *)
Theorem start_in_last_column (s : Password.t) :
  1 <= Password.getLineWrapWidth s - 1 <= Password.startX s ->
  Password.printedY (Password.render s)
  = if Js.length (Password.result s) =? 0 then 0
    else 1 + (Js.length (Password.result s) - 1)
             / (Password.getLineWrapWidth s - 1).
Proof.
  intros HM.
  set (M := Password.getLineWrapWidth s - 1) in *.
  destruct (drawn_rule s
              (fun f =>
                 (Password.i f = 0 /\
                  Password.printedY (Password.self f) = 0 /\
                  Password.column f = Password.startX s) \/
                 (1 <= Password.i f /\
                  Password.i f - 1
                  = M * (Password.printedY (Password.self f) - 1)
                    + Password.column f /\
                  0 <= Password.column f < M)))
    as (Hp & _ & Hi).
  - left. simpl. auto.
  - intros f Hf Hobj Hrange.
    unfold Password.draw, Password.wrap.
    assert (HW : Password.getLineWrapWidth
                   (Password.self
                      (Password.advance
                         (Password.mask (Password.options s)) f)) - 1 = M).
    { simpl. rewrite Hobj. reflexivity. }
    rewrite HW. simpl.
    destruct (Password.column f + 1 >=? M) eqn:C; simpl.
    + apply Z.geb_le in C. right. lia.
    + assert (Password.column f + 1 < M)
        by (rewrite Z.geb_leb in C; apply Z.leb_gt in C; lia).
      right. lia.
  - rewrite render_printedY, <- Hi.
    destruct Hp as [(H0 & Hy & _)|(H1 & Hsum & Hcol)].
    + rewrite H0, Hy. reflexivity.
    + replace (Password.i (Password.drawn s) =? 0) with false
        by (symmetry; apply Z.eqb_neq; lia).
      rewrite <- (Z.div_unique (Password.i (Password.drawn s) - 1) M
                 (Password.printedY (Password.self (Password.drawn s)) - 1)
                 (Password.column (Password.drawn s)));
        [lia|left; exact Hcol|exact Hsum].
Qed.

(** When the prefix ends before the column kept free, the drawing leaves
    the cursor in column [(_startX + L) mod (W - 1)], which lies before
    the last column of the terminal. *)
Theorem cursor_column_after_drawing (s : Password.t) :
  0 <= Password.startX s < Password.getLineWrapWidth s - 1 ->
  Password.column (Password.drawn s)
  = (Password.startX s + Js.length (Password.result s))
    mod (Password.getLineWrapWidth s - 1) /\
  0 <= Password.column (Password.drawn s)
    < Password.getLineWrapWidth s - 1.
Proof.
  intros Hx.
  set (M := Password.getLineWrapWidth s - 1) in *.
  destruct (drawn_rule s
              (fun f =>
                 Password.startX s + Password.i f
                 = M * Password.printedY (Password.self f)
                   + Password.column f /\
                 0 <= Password.column f < M))
    as ((Hsum & Hcol) & _ & Hi).
  - simpl. lia.
  - intros f (Hsum & Hcol) Hobj _.
    unfold Password.draw, Password.wrap.
    assert (HW : Password.getLineWrapWidth
                   (Password.self
                      (Password.advance
                         (Password.mask (Password.options s)) f)) - 1 = M).
    { simpl. rewrite Hobj. reflexivity. }
    rewrite HW. simpl.
    destruct (Password.column f + 1 >=? M) eqn:C; simpl.
    + apply Z.geb_le in C. lia.
    + assert (Password.column f + 1 < M)
        by (rewrite Z.geb_leb in C; apply Z.leb_gt in C; lia).
      lia.
  - split; [|exact Hcol]. rewrite Hi in Hsum.
    apply Z.mod_unique
      with (q := Password.printedY (Password.self (Password.drawn s)));
      [left; exact Hcol|exact Hsum].
Qed.

(** A rendering leaves the buffer, the options, the start column, the width
    of the terminal and the resolved flag as they are, notes the length of
    the buffer, and only adds to what the stream holds. *)
Theorem render_keeps_the_loop (s : Password.t) :
  Password.result (Password.render s) = Password.result s /\
  Password.options (Password.render s) = Password.options s /\
  Password.startX (Password.render s) = Password.startX s /\
  resolved (Password.super (Password.render s))
  = resolved (Password.super s) /\
  columns (stderr (Password.super (Password.render s)))
  = columns (stderr (Password.super s)) /\
  Password.lastPrintedLength (Password.render s)
  = Js.length (Password.result s) /\
  written (stderr (Password.super (Password.render s)))
  = (written (stderr (Password.super s)) ++ pass_output s)%list.
Proof.
  rewrite pass_output_ops, render_spec. simpl. auto 10.
Qed.

(** ** The password prompt: the keystrokes *)

Lemma printable_not_empty (c : string) (k : Key) :
  Password.printable c k = true -> c <> "".
Proof.
  unfold Password.printable. intros P ->. discriminate P.
Qed.

Lemma remove_last_append (r c : string) :
  c <> "" -> remove_last (r ++ c) = r ++ remove_last c.
Proof.
  intros Hc. induction r as [|a r IH]; [reflexivity|].
  cbn [append]. destruct (r ++ c) as [|a' t] eqn:E.
  - destruct r; simpl in E; [congruence|discriminate E].
  - cbn [remove_last]. cbn [remove_last] in IH. rewrite IH. reflexivity.
Qed.

Lemma remove_last_one (c : string) :
  String.length c = 1%nat -> remove_last c = "".
Proof.
  destruct c as [|a [|b t]]; simpl; intros E; try reflexivity; discriminate E.
Qed.

(** Backspace after a printable keystroke takes the last code unit of its
    character off again: the buffer is back as it was when the character
    is one code unit long, and keeps the rest of a longer character. *)
Theorem backspace_after_keystroke (s : Password.t) (c : string) (k : Key)
    (c' : string) (seq : option string) :
  Password.printable c k = true ->
  let back := {| name := Some "backspace"; sequence := seq |} in
  Password.result
    (Password.onKeypress c' back (Password.onKeypress c k s))
  = Password.result s ++ remove_last c /\
  (String.length c = 1%nat ->
   Password.result
     (Password.onKeypress c' back (Password.onKeypress c k s))
   = Password.result s).
Proof.
  intros P back.
  assert (E : Password.result
                (Password.onKeypress c' back (Password.onKeypress c k s))
              = Password.result s ++ remove_last c).
  { rewrite pw_onKeypress_result.
    rewrite (backspace_not_printable c' back) by reflexivity.
    change (name_is back "backspace") with true. cbv iota.
    rewrite (pw_onKeypress_printable c k s P).
    apply remove_last_append, (printable_not_empty c k P). }
  split; [exact E|].
  intros Hone. rewrite E, (remove_last_one c Hone). apply append_empty_r.
Qed.

(** [onKeypress] of the password loop does not look at whether the loop
    has resolved: a printable keystroke handed to it after Enter or Return
    still joins the buffer. *)
Theorem keystroke_after_enter_edits_buffer (s : Password.t) (ce : string)
    (e : Key) (c : string) (k : Key) :
  is_enter e ->
  Password.printable c k = true ->
  let s1 := Password.onKeypress ce e s in
  resolved (Password.super s1) = true /\
  Password.result s1 = Password.result s /\
  Password.result (Password.onKeypress c k s1) = Password.result s ++ c /\
  resolved (Password.super (Password.onKeypress c k s1)) = true.
Proof.
  intros He P s1.
  assert (E1 : s1 = Password.with_super Loop.resolveAsync
                      (Password.term (Write Js.nl) s))
    by (apply pw_onKeypress_enter, He).
  destruct (printable_not_named c k P) as (N1 & N2 & _).
  split; [rewrite E1; reflexivity|].
  split; [rewrite E1; reflexivity|].
  split.
  - rewrite (pw_onKeypress_printable c k s1 P), E1. reflexivity.
  - rewrite pw_onKeypress_edit by (rewrite N1, N2; reflexivity).
    rewrite render_resolved, E1. unfold Password.edit.
    destruct (name_is k "backspace"), (Password.printable c k); reflexivity.
Qed.

Section PasswordStart.

Context `{TextStyle}.

Lemma pw_deliver_resolved_iff (events : list KeyEvent) (s : Password.t) :
  resolved (Password.super s) = false ->
  resolved (Password.super (deliver events s)) = false <->
  Forall (fun e => ~ is_enter (key e)) events.
Proof.
  revert s. induction events as [|e rest IH]; intros s Hr.
  - simpl. split; [constructor|intros _; exact Hr].
  - cbn [deliver base onKeypress Password.prompt]. rewrite Hr.
    destruct (name_is (key e) "enter" || name_is (key e) "return") eqn:E.
    + assert (He : is_enter (key e)) by (apply is_enter_true, E).
      rewrite (pw_onKeypress_enter _ _ s He).
      rewrite deliver_resolved by reflexivity.
      split; [discriminate|]. intros Hall. inversion Hall; tauto.
    + rewrite (pw_onKeypress_edit _ _ s E).
      rewrite IH.
      * split; [intros Hall; constructor; [|exact Hall]|
                intros Hall; inversion Hall; assumption].
        rewrite <- is_enter_true. congruence.
      * rewrite render_resolved. unfold Password.edit.
        destruct (name_is (key e) "backspace"),
          (Password.printable (character e) (key e)); exact Hr.
Qed.

(** The password prompt returns for Enter or Return and for nothing else:
    it stays suspended exactly when no keystroke is one of the two. *)
Theorem password_prompt_waits_for_enter (err : WriteStream)
    (o : IPromptPasswordOptions) (events : list KeyEvent) :
  promptPasswordLine err o events = None <->
  Forall (fun e => ~ is_enter (key e)) events.
Proof.
  rewrite <- (pw_deliver_resolved_iff events (onStart (Password.create err o)))
    by reflexivity.
  unfold promptPasswordLine, startAsync.
  cbn [base Password.prompt].
  destruct (resolved _); split; congruence.
Qed.

End PasswordStart.

(** ** The password prompt: the start column *)

Lemma lastIndexOf_nl_none (s : string) (i found : Z) :
  count_nl s = 0 -> Js.lastIndexOf_nl_from i s found = found.
Proof.
  revert i found. induction s as [|c s IH]; intros i found Hn; simpl in *.
  - reflexivity.
  - assert (0 <= count_nl s)
      by (clear; induction s as [|a s IHs]; simpl;
          [lia|destruct (Ascii.eqb a Js.nl_char); lia]).
    destruct (Ascii.eqb c Js.nl_char); [lia|]. apply IH. lia.
Qed.

Lemma lastIndexOf_nl_last (a b : string) (i found : Z) :
  count_nl b = 0 ->
  Js.lastIndexOf_nl_from i (a ++ Js.nl ++ b) found = i + Js.length a.
Proof.
  intros Hb. revert i found.
  induction a as [|c a IH]; intros i found.
  - simpl. rewrite lastIndexOf_nl_none by exact Hb.
    unfold Js.length. simpl. lia.
  - cbn [append Js.lastIndexOf_nl_from]. rewrite IH.
    unfold Js.length. cbn [String.length]. lia.
Qed.

Lemma substring_drop (a r : string) :
  String.substring (String.length a) (String.length r) (a ++ r) = r.
Proof.
  induction a as [|c a IH]; simpl.
  - apply substring_whole.
  - exact IH.
Qed.

Lemma js_substring_from_drop (a r : string) :
  Js.substring_from (a ++ r) (Js.length a) = r.
Proof.
  transitivity (String.substring (String.length a) (String.length r) (a ++ r));
    [|apply substring_drop].
  unfold Js.substring_from, Js.substring, Js.clamp, Js.length. cbv zeta.
  rewrite length_append, Nat2Z.inj_add. f_equal; lia.
Qed.

Section PasswordStartColumn.

Context `{TextStyle}.

Lemma getLineWrapWidth_positive (s : Password.t) :
  width_not_negative s -> 0 < Password.getLineWrapWidth s.
Proof.
  unfold width_not_negative, Password.getLineWrapWidth.
  destruct (columns (stderr (Password.super s))) as [c|]; [|lia].
  intros Hc. destruct (c =? 0) eqn:E; [lia|].
  apply Z.eqb_neq in E. lia.
Qed.

Lemma onStart_startX (s : Password.t) :
  Password.startX (Password.onStart s)
  = Z.rem
      (Js.length
         (removeCodes
            (Js.substring_from (pw_prefix (pw_question (Password.options s)))
               (if Js.lastIndexOf_nl
                     (pw_prefix (pw_question (Password.options s))) <? 0
                then 0
                else Js.lastIndexOf_nl
                       (pw_prefix (pw_question (Password.options s)))))))
      (Password.getLineWrapWidth s).
Proof. reflexivity. Qed.

(** The password prompt starts with an empty buffer and a start column
    within the width of the terminal, which it does not change; for a
    stream without columns, or with 0 columns, that width is 80. *)
Theorem onStart_start_column (s : Password.t) :
  width_not_negative s ->
  Password.result (Password.onStart s) = "" /\
  0 <= Password.startX (Password.onStart s) < Password.getLineWrapWidth s /\
  Password.getLineWrapWidth (Password.onStart s)
  = Password.getLineWrapWidth s /\
  (columns (stderr (Password.super s)) = None
   \/ columns (stderr (Password.super s)) = Some 0 ->
   Password.getLineWrapWidth s = 80).
Proof.
  intros Hw. split; [reflexivity|]. split.
  - rewrite onStart_startX. apply Z.rem_bound_pos.
    + unfold Js.length. lia.
    + apply getLineWrapWidth_positive, Hw.
  - split; [reflexivity|].
    unfold Password.getLineWrapWidth. intros [E|E]; rewrite E; reflexivity.
Qed.

(** The start column is measured on the last line of the prefix: on the
    whole prefix when it holds no line feed, and else from its last line
    feed on, the line feed itself included. *)
Theorem onStart_measures_last_line (s : Password.t) :
  (count_nl (pw_prefix (pw_question (Password.options s))) = 0 ->
   Password.startX (Password.onStart s)
   = Z.rem
       (Js.length (removeCodes (pw_prefix (pw_question (Password.options s)))))
       (Password.getLineWrapWidth s)) /\
  (forall a b,
     pw_prefix (pw_question (Password.options s)) = a ++ Js.nl ++ b ->
     count_nl b = 0 ->
     Password.startX (Password.onStart s)
     = Z.rem (Js.length (removeCodes (Js.nl ++ b)))
         (Password.getLineWrapWidth s)).
Proof.
  rewrite onStart_startX. split.
  - intros Hn. unfold Js.lastIndexOf_nl.
    rewrite lastIndexOf_nl_none by exact Hn. simpl (-1 <? 0).
    cbv iota.
    change (pw_prefix (pw_question (Password.options s)))
      with ("" ++ pw_prefix (pw_question (Password.options s))) at 1.
    rewrite (js_substring_from_drop "" _). reflexivity.
  - intros a b E Hb. rewrite E. unfold Js.lastIndexOf_nl.
    rewrite lastIndexOf_nl_last by exact Hb.
    replace (0 + Js.length a <? 0) with false
      by (symmetry; apply Z.ltb_ge; unfold Js.length; lia).
    rewrite Z.add_0_l, js_substring_from_drop. reflexivity.
Qed.

End PasswordStartColumn.

(** ** Keystrokes that arrive in one batch *)

Section BatchFacts.

Context {S : Type} `{Prompt S}.

Lemma deliver_batches_resolved (batches : list (list KeyEvent)) (s : S) :
  resolved (base s) = true -> deliver_batches batches s = s.
Proof. intros Hr. destruct batches; simpl; [|rewrite Hr]; reflexivity. Qed.

(** [deliver] is the delivery of batches of one keystroke each. *)
Lemma deliver_as_batches (events : list KeyEvent) (s : S) :
  deliver events s = deliver_batches (map (fun e => [e]) events) s.
Proof.
  revert s. induction events as [|e rest IH]; intros s; simpl.
  - reflexivity.
  - destruct (resolved (base s)); [reflexivity|]. apply IH.
Qed.

End BatchFacts.

Lemma typed_app (a b : list KeyEvent) (buffer : string) :
  typed (a ++ b) buffer = typed b (typed a buffer).
Proof.
  revert buffer. induction a as [|e a IH]; intros buffer; simpl.
  - reflexivity.
  - apply IH.
Qed.

Section BatchedPrompts.

Context `{TextStyle}.

(** The yes/no loop is resolved only with its result set. *)
Lemma yn_onKeypress_sound (c : string) (k : Key) (s : YesNo.t) :
  (resolved (YesNo.super s) = true -> exists b, YesNo.result s = Some b) ->
  resolved (YesNo.super (YesNo.onKeypress c k s)) = true ->
  exists b, YesNo.result (YesNo.onKeypress c k s) = Some b.
Proof.
  intros Hs Hr. destruct (YesNo.result s) as [b|] eqn:Hres.
  - rewrite (yn_onKeypress_settled c k s b Hres). eauto.
  - pose proof (yn_onKeypress_waiting c k s Hres) as Hw.
    destruct (YesNo.assigned _ k) as [b|].
    + exists b. apply Hw.
    + rewrite Hw in Hr. destruct (Hs Hr) as [b Hb]. congruence.
Qed.

(** For the yes/no loop a batch does what its keystrokes do one by one:
    those that follow the resolving one are stopped by the loop itself. *)
Lemma yn_keypresses_deliver (events : list KeyEvent) (s : YesNo.t) :
  (resolved (YesNo.super s) = true -> exists b, YesNo.result s = Some b) ->
  keypresses events s = deliver events s.
Proof.
  revert s. induction events as [|e rest IH]; intros s Hs.
  - reflexivity.
  - cbn [deliver base onKeypress YesNo.prompt].
    change (keypresses (e :: rest) s)
      with (keypresses rest (YesNo.onKeypress (character e) (key e) s)).
    destruct (Bool.bool_dec (resolved (YesNo.super s)) true) as [Hr|Hr].
    + destruct (Hs Hr) as [b Hb].
      rewrite Hr, (yn_onKeypress_settled _ _ s b Hb).
      rewrite IH by exact Hs.
      apply deliver_resolved, Hr.
    + apply not_true_is_false in Hr. rewrite Hr.
      apply IH. apply yn_onKeypress_sound, Hs.
Qed.

Lemma yn_deliver_sound (events : list KeyEvent) (s : YesNo.t) :
  (resolved (YesNo.super s) = true -> exists b, YesNo.result s = Some b) ->
  resolved (YesNo.super (deliver events s)) = true ->
  exists b, YesNo.result (deliver events s) = Some b.
Proof.
  revert s. induction events as [|e rest IH]; intros s Hs.
  - exact Hs.
  - cbn [deliver base onKeypress YesNo.prompt].
    destruct (Bool.bool_dec (resolved (YesNo.super s)) true) as [Hr|Hr].
    + rewrite Hr. exact Hs.
    + apply not_true_is_false in Hr. rewrite Hr.
      apply IH. apply yn_onKeypress_sound, Hs.
Qed.

Lemma yn_deliver_batches (batches : list (list KeyEvent)) (s : YesNo.t) :
  (resolved (YesNo.super s) = true -> exists b, YesNo.result s = Some b) ->
  deliver_batches batches s = deliver (List.concat batches) s.
Proof.
  revert s. induction batches as [|batch rest IH]; intros s Hs.
  - reflexivity.
  - cbn [deliver_batches List.concat base YesNo.prompt].
    rewrite deliver_app.
    destruct (Bool.bool_dec (resolved (YesNo.super s)) true) as [Hr|Hr].
    + rewrite Hr, (@deliver_resolved _ YesNo.prompt batch s Hr).
      symmetry. apply deliver_resolved, Hr.
    + rewrite (yn_keypresses_deliver batch s Hs).
      apply not_true_is_false in Hr. rewrite Hr.
      apply IH. apply yn_deliver_sound, Hs.
Qed.

(** However the keystrokes are cut into batches, the yes/no prompt returns
    what it returns for the keystrokes one by one. *)
Lemma promptYesNo_batches_concat (err : WriteStream)
    (o : IPromptYesNoOptions) (batches : list (list KeyEvent)) :
  promptYesNo_batches err o batches
  = promptYesNo err o (List.concat batches).
Proof.
  unfold promptYesNo_batches, promptYesNo, startAsync_batches, startAsync.
  rewrite yn_deliver_batches; [reflexivity|].
  cbn. discriminate.
Qed.

(** A batch does to the buffer of the password loop what the specification
    says of its keystrokes, Enter and Return leaving the buffer as it is,
    and nothing in the loop stops at them. *)
Lemma pw_keypresses_typed (events : list KeyEvent) (s : Password.t) :
  Password.result (keypresses events s) = typed events (Password.result s).
Proof.
  revert s. induction events as [|e rest IH]; intros s.
  - reflexivity.
  - change (keypresses (e :: rest) s)
      with (keypresses rest (Password.onKeypress (character e) (key e) s)).
    rewrite IH, pw_onKeypress_result. simpl.
    destruct (name_is (key e) "backspace") eqn:B; [|reflexivity].
    rewrite (backspace_not_printable _ _ B). reflexivity.
Qed.

Lemma pw_onKeypress_resolved (c : string) (k : Key) (s : Password.t) :
  resolved (Password.super (Password.onKeypress c k s))
  = (name_is k "enter" || name_is k "return")
    || resolved (Password.super s).
Proof.
  destruct (name_is k "enter" || name_is k "return") eqn:E.
  - apply is_enter_true in E. rewrite (pw_onKeypress_enter c k s E).
    reflexivity.
  - rewrite (pw_onKeypress_edit c k s E), render_resolved.
    unfold Password.edit.
    destruct (name_is k "backspace"), (Password.printable c k); reflexivity.
Qed.

Lemma pw_keypresses_resolved (events : list KeyEvent) (s : Password.t) :
  resolved (Password.super (keypresses events s))
  = existsb (fun e => name_is (key e) "enter" || name_is (key e) "return")
      events
    || resolved (Password.super s).
Proof.
  revert s. induction events as [|e rest IH]; intros s.
  - reflexivity.
  - change (keypresses (e :: rest) s)
      with (keypresses rest (Password.onKeypress (character e) (key e) s)).
    rewrite IH, pw_onKeypress_resolved. simpl.
    destruct (existsb _ rest), (name_is (key e) "enter" || _),
      (resolved (Password.super s)); reflexivity.
Qed.

(** What the password prompt returns for keystrokes in batches: the buffer
    that all keystrokes built up to the end of the batch in which Enter or
    Return came, those after it in the batch included. *)
Lemma promptPasswordLine_batches_typed (err : WriteStream)
    (o : IPromptPasswordOptions) (quiet : list (list KeyEvent))
    (batch : list KeyEvent) (later : list (list KeyEvent)) :
  Forall (Forall (fun e => ~ is_enter (key e))) quiet ->
  Exists (fun e => is_enter (key e)) batch ->
  promptPasswordLine_batches err o (quiet ++ batch :: later)
  = Some (typed (List.concat quiet ++ batch) "").
Proof.
  intros Hquiet Hbatch.
  unfold promptPasswordLine_batches, startAsync_batches.
  assert (Hgo : forall s : Password.t,
            resolved (Password.super s) = false ->
            resolved
              (Password.super (deliver_batches (quiet ++ batch :: later) s))
            = true /\
            Password.result (deliver_batches (quiet ++ batch :: later) s)
            = typed (List.concat quiet ++ batch) (Password.result s)).
  { induction Hquiet as [|q quiet Hq _ IH]; intros s Hr.
    - cbn [app deliver_batches List.concat base Password.prompt].
      rewrite Hr.
      assert (Hres : resolved (Password.super (keypresses batch s)) = true).
      { rewrite pw_keypresses_resolved. apply orb_true_iff. left.
        apply existsb_exists. apply Exists_exists in Hbatch.
        destruct Hbatch as (e & Hin & He). exists e.
        split; [exact Hin|apply is_enter_true, He]. }
      rewrite deliver_batches_resolved by exact Hres.
      split; [exact Hres|apply pw_keypresses_typed].
    - cbn [app deliver_batches List.concat base Password.prompt].
      rewrite Hr.
      destruct (IH (keypresses q s)) as [Hres Hty].
      + rewrite pw_keypresses_resolved, Hr, orb_false_r.
        apply not_true_is_false. intros Hex.
        apply existsb_exists in Hex. destruct Hex as (e & Hin & He).
        rewrite Forall_forall in Hq. apply (Hq e Hin), is_enter_true, He.
      + split; [exact Hres|].
        rewrite Hty, pw_keypresses_typed, <- app_assoc.
        symmetry. apply typed_app. }
  destruct (Hgo (Password.onStart (Password.create err o)) eq_refl)
    as [Hres Hty].
  cbn [base onStart Password.prompt]. rewrite Hres, Hty. reflexivity.
Qed.

End BatchedPrompts.

(** C2, as the code has it. The password loop does not stop at Enter or
    Return: when [x] follows Return in the same batch, after the
    keystrokes that build ["hi"], [promptPasswordLine] returns ["hix"];
    it returns ["hi"] when every keystroke comes in a batch of its own. *)
Theorem keys_after_enter_join_the_result :
  typed hi_keys "" = "hi" /\
  @promptPasswordLine_batches plain (tty 80) password_options [hi_return_x]
  = Some "hix" /\
  @promptPasswordLine plain (tty 80) password_options hi_return_x
  = Some "hi".
Proof. vm_compute. repeat split. Qed.

(** ** The theorems at work *)

(** Return after [h], [u], Backspace and [i]: the prompt returns ["hi"],
    whatever is typed afterwards. *)
Lemma enter_returns_buffer_witness :
  is_enter (key (named "return" (String "013" ""))) /\
  @promptPasswordLine plain (tty 80)
    {| pw_question := "Password:"; passwordCharacter := None |}
    ([letter "h"; letter "u"; named "backspace" (String "127" ""); letter "i"]
     ++ named "return" (String "013" "") :: [letter "x"])
  = Some "hi".
Proof.
  assert (He : is_enter (key (named "return" (String "013" ""))))
    by (right; reflexivity).
  split; [exact He|].
  refine (proj2 (@enter_returns_buffer plain (tty 80)
                   {| pw_question := "Password:"; passwordCharacter := None |}
                   [letter "h"; letter "u";
                    named "backspace" (String "127" ""); letter "i"]
                   (named "return" (String "013" "")) [letter "x"] He _)).
  repeat constructor; intros [E|E]; discriminate E.
Defined.

(** Three letters on a terminal of 10 columns, the prompt starting in
    column 8: the text written last is three asterisks and a line break. *)
Lemma masked_rendering_is_stars_witness :
  exists text,
    last_write
      (written
         (stderr
            (Password.super
               (deliver (H := @Password.prompt plain)
                  ([letter "a"; letter "b"] ++ [letter "c"])
                  (Password.set_startX 8
                     (Password.create (tty 10)
                        {| pw_question := "Pin"; passwordCharacter := None |}))))))
    = Some text /\
    strip_nl text = "***".
Proof.
  destruct (@masked_rendering_is_stars plain
              (Password.set_startX 8
                 (Password.create (tty 10)
                    {| pw_question := "Pin"; passwordCharacter := None |}))
              [letter "a"; letter "b"] (letter "c")
              eq_refl eq_refl)
    as (text & Hw & Hs & _).
  - repeat constructor.
  - exists text. split; [exact Hw|exact Hs].
Defined.

(** Scenario 3 obeys the law: [(5 + 6) / 9 - 5 / 9 = 1] line break. *)
Lemma wrap_count_law_witness :
  0 <= Password.startX scenario3_loop
     < Password.getLineWrapWidth scenario3_loop - 1 /\
  wrap_law scenario3_loop.
Proof.
  assert (Hx : 0 <= Password.startX scenario3_loop
                  < Password.getLineWrapWidth scenario3_loop - 1).
  { split; [apply Z.leb_le|apply Z.ltb_lt]; vm_compute; reflexivity. }
  split; [exact Hx|].
  exact (proj1 (wrap_count_law scenario3_loop Hx)).
Defined.

(** Under [(Y/n)], Return answers yes. *)
Lemma suffix_announces_enter_witness :
  is_enter (key (named "return" (String "013" ""))) /\
  (YesNo.assigned (Some true) (key (named "return" (String "013" "")))
   = Some true
   <-> YesNo.optionSuffix (Some true) = "(Y/n)").
Proof.
  assert (He : is_enter (key (named "return" (String "013" ""))))
    by (right; reflexivity).
  split; [exact He|].
  exact (proj1 (suffix_announces_enter (Some true) _ He)).
Defined.

(** A loop that has its answer ignores [n] and Return. *)
Lemma yesno_ignores_keys_after_answer_witness :
  YesNo.result answered_loop = Some true /\
  keypresses (H := @YesNo.prompt plain)
    [letter "n"; named "return" (String "013" "")] answered_loop
  = answered_loop.
Proof.
  split; [reflexivity|].
  exact (@yesno_ignores_keys_after_answer plain answered_loop true
           [letter "n"; named "return" (String "013" "")] eq_refl).
Defined.

(** Three characters on a terminal of width 1: three line breaks. *)
Lemma narrow_terminal_witness :
  Password.getLineWrapWidth narrow_loop <= 2 /\
  Password.printedY (Password.render narrow_loop)
  = Js.length (Password.result narrow_loop).
Proof.
  assert (HW : Password.getLineWrapWidth narrow_loop <= 2)
    by (apply Z.leb_le; vm_compute; reflexivity).
  assert (Hx : 0 <= Password.startX narrow_loop)
    by (apply Z.leb_le; vm_compute; reflexivity).
  split; [exact HW|].
  exact (proj1 (narrow_terminal_breaks_every_character narrow_loop HW Hx)).
Defined.

(** A prefix of nine columns on a terminal of 10: the first character
    breaks the line. *)
Lemma start_in_last_column_witness :
  1 <= Password.getLineWrapWidth last_column_loop - 1
    <= Password.startX last_column_loop /\
  Password.printedY (Password.render last_column_loop)
  = (if Js.length (Password.result last_column_loop) =? 0 then 0
     else 1 + (Js.length (Password.result last_column_loop) - 1)
              / (Password.getLineWrapWidth last_column_loop - 1)).
Proof.
  assert (HM : 1 <= Password.getLineWrapWidth last_column_loop - 1
                 <= Password.startX last_column_loop)
    by (split; apply Z.leb_le; vm_compute; reflexivity).
  split; [exact HM|].
  exact (start_in_last_column last_column_loop HM).
Defined.

(** Scenario 3 leaves the cursor in column [(5 + 6) mod 9 = 2]. *)
Lemma cursor_column_after_drawing_witness :
  Password.column (Password.drawn scenario3_loop)
  = (Password.startX scenario3_loop
     + Js.length (Password.result scenario3_loop))
    mod (Password.getLineWrapWidth scenario3_loop - 1).
Proof.
  assert (Hx : 0 <= Password.startX scenario3_loop
                  < Password.getLineWrapWidth scenario3_loop - 1)
    by (split; [apply Z.leb_le|apply Z.ltb_lt]; vm_compute; reflexivity).
  exact (proj1 (cursor_column_after_drawing scenario3_loop Hx)).
Defined.

(** [a], then Backspace: the buffer is empty again. *)
Lemma backspace_after_keystroke_witness :
  Password.printable "a" (key (letter "a")) = true /\
  Password.result
    (Password.onKeypress (String "127" "")
       {| name := Some "backspace"; sequence := Some (String "127" "") |}
       (Password.onKeypress "a" (key (letter "a")) fresh_loop))
  = Password.result fresh_loop.
Proof.
  split; [reflexivity|].
  exact (proj2 (backspace_after_keystroke fresh_loop "a" (key (letter "a"))
                  (String "127" "") (Some (String "127" "")) eq_refl)
           eq_refl).
Defined.

(** Return, then [x] handed to [onKeypress] all the same: the buffer of
    the resolved loop holds [x]. *)
Lemma keystroke_after_enter_witness :
  is_enter (key (named "return" (String "013" ""))) /\
  Password.result
    (Password.onKeypress "x" (key (letter "x"))
       (Password.onKeypress (String "013" "")
          (key (named "return" (String "013" ""))) fresh_loop))
  = Password.result fresh_loop ++ "x".
Proof.
  assert (He : is_enter (key (named "return" (String "013" ""))))
    by (right; reflexivity).
  split; [exact He|].
  exact (proj1 (proj2 (proj2
           (keystroke_after_enter_edits_buffer fresh_loop (String "013" "")
              (key (named "return" (String "013" ""))) "x" (key (letter "x"))
              He eq_refl)))).
Defined.

(** On a terminal of 10 columns the start column is below 10. *)
Lemma onStart_start_column_witness :
  width_not_negative fresh_loop /\
  0 <= Password.startX (@Password.onStart plain fresh_loop)
    < Password.getLineWrapWidth fresh_loop.
Proof.
  assert (Hw : width_not_negative fresh_loop)
    by (apply Z.leb_le; vm_compute; reflexivity).
  split; [exact Hw|].
  exact (proj1 (proj2 (@onStart_start_column plain fresh_loop Hw))).
Defined.
